(** * pinger: the bounded-concurrency probe dispatcher of [main.go]

    A shallow embedding of [main], [handleRequest], [checkPing] and
    [checkHTTP], with the pieces of the Go runtime and standard library they
    lean on (the buffered channel used as a semaphore, [select], [regexp],
    [strconv.ParseFloat], [strings.TrimPrefix], [encoding/json]) written
    out as far as the program uses them. *)

From Stdlib Require Import ZArith Bool List Lia.
From Stdlib Require Import Strings.Ascii Strings.String.
From Stdlib Require Import Floats.SpecFloat.
From Stdlib Require Import Numbers.DecimalString.
Import ListNotations.

Local Open Scope list_scope.
Local Open Scope string_scope.

(** ** Go strings

    A Go [string] is a sequence of bytes; [String.string] is a sequence of
    8-bit characters. *)

Module Str.

(** [drop n s] is the Go slice expression [s[n:]] (for [n <= len(s)]). *)
Fixpoint drop (n : nat) (s : string) : string :=
  match n, s with
  | O, _ => s
  | S n', String _ s' => drop n' s'
  | S _, EmptyString => EmptyString
  end.

(** The double-quote byte, 0x22. *)
Definition dquote : string := String (ascii_of_nat 34) EmptyString.

End Str.

(** ** regexp: the pattern of [checkPing]

    [regexp.MustCompile(`(?m)/(\d+\.\d+)/(\d+\.\d+)/`)]. The pattern has no
    [^] or [$], so the [(?m)] flag changes nothing; [\d] is the ASCII class
    [0-9]. *)

Definition is_digit (c : ascii) : bool :=
  match c with
  | "0" | "1" | "2" | "3" | "4" | "5" | "6" | "7" | "8" | "9" => true
  | _ => false
  end%char.

(** [all_digits s]: [s] matches [\d*]. *)
Fixpoint all_digits (s : string) : bool :=
  match s with
  | EmptyString => true
  | String c s' => is_digit c && all_digits s'
  end.

(** [s] matches [\d+]. *)
Definition digits1 (s : string) : bool :=
  match s with
  | EmptyString => false
  | _ => all_digits s
  end.

(** [s] matches [\d+\.\d+]: the text of a capture group. *)
Definition is_decimal (s : string) : Prop :=
  exists a b, digits1 a = true /\ digits1 b = true /\ s = a ++ "." ++ b.

(** The longest run of digits at the head of [s], and what follows it. A
    [\d+] that is followed in the pattern by a byte that is not a digit
    ([.] or [/]) can only match this longest run. *)
Fixpoint span_digits (s : string) : string * string :=
  match s with
  | EmptyString => (EmptyString, EmptyString)
  | String c s' =>
      if is_digit c
      then let (d, r) := span_digits s' in (String c d, r)
      else (EmptyString, s)
  end.

(** [\d+\.\d+] anchored at the head of [s]: the text matched and the rest. *)
Definition match_decimal (s : string) : option (string * string) :=
  match span_digits s with
  | (EmptyString, _) => None
  | (a, String "." r) =>
      match span_digits r with
      | (EmptyString, _) => None
      | (b, r') => Some (a ++ "." ++ b, r')
      end
  | _ => None
  end.

(** The whole pattern anchored at the head of [s]: the slice of the full
    match and the two groups, as [FindStringSubmatch] lays them out. *)
Definition match_here (s : string) : option (list string) :=
  match s with
  | String "/" r0 =>
      match match_decimal r0 with
      | Some (g1, String "/" r1) =>
          match match_decimal r1 with
          | Some (g2, String "/" _) =>
              Some ["/" ++ g1 ++ "/" ++ g2 ++ "/"; g1; g2]
          | _ => None
          end
      | _ => None
      end
  | _ => None
  end.

(** [re.FindStringSubmatch(s)]: the leftmost match, or [nil]. *)
Fixpoint FindStringSubmatch (s : string) : list string :=
  match match_here s with
  | Some m => m
  | None =>
      match s with
      | EmptyString => []
      | String _ s' => FindStringSubmatch s'
      end
  end.

(** ** float64 and strconv.ParseFloat *)

Definition float64 : Type := spec_float.

Definition prec64 : Z := 53.
Definition emax64 : Z := 1024.

Definition f64_zero : float64 := S754_zero false.

(** Go's [val <= 0] and [val > 0] on float64. *)
Definition f64_le (x y : float64) : bool := SFleb x y.
Definition f64_lt (x y : float64) : bool := SFltb x y.

Definition digit_val (c : ascii) : Z := Z.of_N (N_of_ascii c) - 48.

(** The number a digit string writes, most significant digit first. *)
Fixpoint digits_val (acc : Z) (s : string) : Z :=
  match s with
  | EmptyString => acc
  | String c s' => digits_val (10 * acc + digit_val c) s'
  end.

Inductive NumErr := ErrRange | ErrSyntax.

(** [*strconv.NumError]: [Func] is always ["ParseFloat"] here. *)
Record NumError := { Num : string; Err : NumErr }.

(** [n / 10^k] rounded to the nearest binary64, ties to even; beyond the
    largest finite value this is [+Inf], below the smallest subnormal [0]. *)
Definition decimal_to_f64 (n : Z) (k : nat) : float64 :=
  match n with
  | Zpos p =>
      SFdiv prec64 emax64
        (S754_finite false p 0)
        (S754_finite false (Z.to_pos (10 ^ Z.of_nat k)) 0)
  | _ => f64_zero
  end.

(** [strconv.ParseFloat(s, 64)] on the decimals [\d+\.\d+], the only
    strings [checkPing] passes to it ([FindStringSubmatch_shape] below).
    The result is the correctly rounded value; overflow gives [+Inf] with
    [ErrRange], underflow gives [0] without an error. The other syntaxes Go
    accepts (exponents, hexadecimal, [inf], underscores) are outside this
    model and come out as [ErrSyntax]. *)
Definition ParseFloat (s : string) : float64 * option NumError :=
  match span_digits s with
  | (EmptyString, _) => (f64_zero, Some {| Num := s; Err := ErrSyntax |})
  | (a, String "." r) =>
      match span_digits r with
      | (EmptyString, _) => (f64_zero, Some {| Num := s; Err := ErrSyntax |})
      | (b, EmptyString) =>
          let f := decimal_to_f64 (digits_val 0 (a ++ b)) (String.length b) in
          match f with
          | S754_infinity _ => (f, Some {| Num := s; Err := ErrRange |})
          | _ => (f, None)
          end
      | _ => (f64_zero, Some {| Num := s; Err := ErrSyntax |})
      end
  | _ => (f64_zero, Some {| Num := s; Err := ErrSyntax |})
  end.

(** ** How the external process and the network answer *)

(** How [cmd.CombinedOutput()] ended: its error is [nil] exactly for
    [Exited 0]. *)
Inductive proc_status :=
| Exited (code : Z)
| Signaled          (* killed, e.g. by the cancellation of [ctx] *)
| StartFailed.      (* the utility could not be started *)

(** [*url.Error], the type of every error of [http.NewRequestWithContext]
    with a valid method and of [client.Do]. *)
Record url_Error := { Op : string; URL : string; Cause : string }.

(** ** Go values of the handler *)

(** [error]: all the handler does with one is [err != nil] and
    [err.Error()]. *)
Record error := errors_New { error_Error : string }.

(** [any], as far as [Result] holds one. *)
Inductive any :=
| any_nil
| any_int (z : Z)
| any_float64 (f : float64).

Record Response := {
  Host : string;
  Type' : string;
  Result : any;     (* `json:"result"` *)
  Error : string    (* `json:"error,omitempty"` *)
}.

(** JSON scalars; [JString s] stands for the JSON text of the Go string
    [s]. Every body the handler writes is one JSON object of scalars. *)
Inductive jvalue :=
| JNull
| JInt (z : Z)
| JFloat (f : float64)
| JString (s : string).

Definition json : Type := list (string * jvalue).

Definition is_number (j : jvalue) : bool :=
  match j with
  | JInt _ | JFloat _ => true
  | _ => false
  end.

(** The member of an object under a key. *)
Fixpoint member (key : string) (o : json) : option jvalue :=
  match o with
  | [] => None
  | (k, v) :: o' => if (k =? key)%string then Some v else member key o'
  end.

(** [encoding/json] refuses NaN and the infinities. *)
Definition marshal_any (a : any) : option jvalue :=
  match a with
  | any_nil => Some JNull
  | any_int z => Some (JInt z)
  | any_float64 (S754_nan | S754_infinity _) => None
  | any_float64 f => Some (JFloat f)
  end.

Definition marshal_Response (r : Response) : option json :=
  match marshal_any (Result r) with
  | None => None
  | Some res =>
      Some ([("host", JString (Host r)); ("type", JString (Type' r));
             ("result", res)]
            ++ (if (Error r =? "")%string then []
                else [("error", JString (Error r))]))%list
  end.

(** [map[string]string]: every entry is written, keys in sorted order (the
    handler's maps have one key). *)
Definition marshal_map (m : list (string * string)) : json :=
  map (fun kv => (fst kv, JString (snd kv))) m.

(** [UnsupportedValueError.Error] of [encoding/json], for the float64 it
    refuses. *)
Definition UnsupportedValueError (a : any) : error :=
  errors_New ("json: unsupported value: "
              ++ match a with
                 | any_float64 (S754_infinity false) => "+Inf"
                 | any_float64 (S754_infinity true) => "-Inf"
                 | _ => "NaN"
                 end).

(** [json.Marshal], as [Encode] calls it: the text, or the error. A map
    of strings is never refused. *)
Definition json_Marshal_Response (r : Response) : json + error :=
  match marshal_Response r with
  | Some j => inl j
  | None => inr (UnsupportedValueError (Result r))
  end.

Definition json_Marshal_map (m : list (string * string)) : json + error :=
  inl (marshal_map m).

(** [url.Values.Get]: the first value of the key, or the empty string. *)
Fixpoint Get (query : list (string * string)) (key : string) : string :=
  match query with
  | [] => ""
  | (k, v) :: q' => if (k =? key)%string then v else Get q' key
  end.

(** Of [*http.Request] the handler reads [r.URL.Query()] and
    [r.Context()]. The query is the field below. The context is not a field:
    the handler only waits on its [Done()] channel in the [select] and hands
    it to the probe, and whether it is done is decided by the client, so it
    is [ctx_Done] of the [World]; a cancelled probe is an outcome of
    [os_exec] or [client_Do]. *)
Record Request := { URL_Query : list (string * string) }.

(** ** What the program takes from outside

    The outcomes of the external process, of the network and of the
    client's connection, the state of the request's context, the choice
    [select] makes between ready cases, and the two text formatters of
    [strconv] that only fix the wording of error messages. *)
Record World := {
  (** [strconv.Quote] *)
  strconv_Quote : string -> string;
  (** [strconv.FormatFloat(f, 'g', -1, 64)] on a finite non-zero [f],
      given by sign, mantissa and exponent *)
  strconv_FormatFloat_g : bool -> positive -> Z -> string;
  (** running [argv]: combined output and how the process ended *)
  os_exec : list string -> string * proc_status;
  (** [url.Parse], as [http.NewRequestWithContext] calls it *)
  url_Parse : string -> option url_Error;
  (** [client.Do] on a request with that method and URL: the final
      response's [StatusCode], or the transport error *)
  client_Do : string -> string -> Z + url_Error;
  (** [w.Write] on the text of a body: [nil], or the error of the
      connection (the client has gone, the write deadline has passed) *)
  w_Write : json -> option error;
  (** whether [r.Context().Done()] is ready when [select] runs *)
  ctx_Done : bool;
  (** which case [select] takes when both communications are ready: Go
      picks one by uniform pseudo-random choice *)
  select_pick_send : bool
}.

(** ** The state one request runs against *)

(** A buffered channel of [struct{}]: only the number of queued elements
    matters. *)
Record chan := { chan_cap : nat; chan_len : nat }.

Definition make_chan (limit : nat) : chan :=
  {| chan_cap := limit; chan_len := 0 |}.

(** [http.ResponseWriter]: the status line is fixed by the first
    [WriteHeader] or, failing that, by the first [Write] (as 200).
    [rw_body] holds the bodies the handler passed to [Write], whether or not
    the connection took them ([w_Write]). *)
Record ResponseWriter := {
  rw_header : list (string * string);
  rw_status : option Z;
  rw_body : list json
}.

Definition new_ResponseWriter : ResponseWriter :=
  {| rw_header := []; rw_status := None; rw_body := [] |}.

(** What the handler did to the gate and to the probed host, in order. *)
Inductive Event :=
| EvChanSend                       (* [concurrencyLimit <- struct{}{}] *)
| EvChanRecv                       (* [<-concurrencyLimit] *)
| EvCtxDone                        (* [<-r.Context().Done()] *)
| EvSelectDefault                  (* the [default] case *)
| EvCheckPing (host : string)            (* [checkPing] entered *)
| EvCheckHTTP (host scheme : string)     (* [checkHTTP] entered *)
| EvExec (argv : list string)            (* [cmd.CombinedOutput()] *)
| EvNewRequest (method url : string)     (* [http.NewRequestWithContext] *)
| EvDo (method url : string).            (* [client.Do(req)] *)

Record State := {
  concurrencyLimit : chan;
  w : ResponseWriter;
  trace : list Event;
  logged : list string     (* the lines written with [log.Printf] *)
}.

(** ** A state monad for the handler *)

Definition M (A : Type) : Type := State -> A * State.

Definition ret {A} (a : A) : M A := fun s => (a, s).

Definition bind {A B} (m : M A) (k : A -> M B) : M B :=
  fun s => let (a, s') := m s in k a s'.

Declare Scope go_scope.
Delimit Scope go_scope with go.
Notation "x <- m ;; k" := (bind m (fun x => k))
  (at level 61, m at next level, right associativity) : go_scope.
Notation "m ;; k" := (bind m (fun _ => k))
  (at level 61, right associativity) : go_scope.
Local Open Scope go_scope.

Definition emit (e : Event) : M unit :=
  fun s => (tt, {| concurrencyLimit := concurrencyLimit s; w := w s;
                   trace := (trace s ++ [e])%list; logged := logged s |}).

(** [log.Printf] *)
Definition log_Printf (line : string) : M unit :=
  fun s => (tt, {| concurrencyLimit := concurrencyLimit s; w := w s;
                   trace := trace s;
                   logged := (logged s ++ [line])%list |}).

Definition update_w (f : ResponseWriter -> ResponseWriter) : M unit :=
  fun s => (tt, {| concurrencyLimit := concurrencyLimit s; w := f (w s);
                   trace := trace s; logged := logged s |}).

Definition update_chan (f : chan -> chan) : M unit :=
  fun s => (tt, {| concurrencyLimit := f (concurrencyLimit s); w := w s;
                   trace := trace s; logged := logged s |}).

Definition get_chan : M chan := fun s => (concurrencyLimit s, s).

(** [w.Header().Set(k, v)] *)
Definition Header_Set (k v : string) : M unit :=
  update_w (fun rw => {| rw_header := (k, v) :: rw_header rw;
                         rw_status := rw_status rw; rw_body := rw_body rw |}).

(** [w.WriteHeader(status)] *)
Definition WriteHeader (status : Z) : M unit :=
  update_w (fun rw =>
    {| rw_header := rw_header rw;
       rw_status := match rw_status rw with
                    | None => Some status
                    | Some st => Some st
                    end;
       rw_body := rw_body rw |}).

(** ** The program *)

Section Program.

Variable wd : World.

(** [apiKey], read once in [main]. *)
Variable apiKey : string.

(** [w.Write]: an implicit [WriteHeader(http.StatusOK)] first; then the
    body goes to the connection, which may fail. *)
Definition Write (j : json) : M (option error) :=
  WriteHeader 200 ;;
  update_w (fun rw => {| rw_header := rw_header rw; rw_status := rw_status rw;
                         rw_body := (rw_body rw ++ [j])%list |}) ;;
  ret (w_Write wd j).

(** [json.NewEncoder(w).Encode(v)]: the value is marshalled whole; a value
    [encoding/json] refuses is the error and nothing is written, else the
    text is passed to [w.Write] and the error is the one of the write. *)
Definition Encode (v : json + error) : M (option error) :=
  match v with
  | inl j => Write j
  | inr e => ret (Some e)
  end.

(** [strings.TrimPrefix] *)
Definition TrimPrefix (s pre : string) : string :=
  if String.prefix pre s then Str.drop (String.length pre) s else s.

(** [NumError.Error] *)
Definition NumError_Error (e : NumError) : string :=
  "strconv.ParseFloat: parsing " ++ strconv_Quote wd (Num e) ++ ": "
  ++ match Err e with
     | ErrRange => "value out of range"
     | ErrSyntax => "invalid syntax"
     end.

(** [url.Error.Error]: [fmt.Sprintf("%s %q: %s", e.Op, e.URL, e.Err)] *)
Definition url_Error_Error (e : url_Error) : string :=
  Op e ++ " " ++ strconv_Quote wd (URL e) ++ ": " ++ Cause e.

(** The verb [%v] of [fmt] on a float64. *)
Definition Sprint_v (f : float64) : string :=
  match f with
  | S754_zero false => "0"
  | S754_zero true => "-0"
  | S754_infinity false => "+Inf"
  | S754_infinity true => "-Inf"
  | S754_nan => "NaN"
  | S754_finite s m e => strconv_FormatFloat_g wd s m e
  end.

(** [err != nil] after [cmd.CombinedOutput()] *)
Definition run_failed (st : proc_status) : bool :=
  match st with
  | Exited 0 => false
  | _ => true
  end.

Definition checkPing (host : string) : M (float64 * option error) :=
  emit (EvCheckPing host) ;;
  let argv := ["ping"; "-c"; "3"; "-W"; "2"; "-q"; host] in
  emit (EvExec argv) ;;
  let (output, st) := os_exec wd argv in
  if run_failed st then
    ret (f64_zero,
         Some (errors_New "ping failed: host unreachable or timeout"))
  else
    let matches := FindStringSubmatch output in
    if (3 <=? List.length matches)%nat then
      let (val, err) := ParseFloat (nth 2 matches "") in
      match err with
      | Some e =>
          ret (f64_zero,
               Some (errors_New ("parse error: " ++ NumError_Error e)))
      | None =>
          if f64_le val f64_zero then
            ret (f64_zero,
                 Some (errors_New ("invalid ping result: " ++ Sprint_v val)))
          else ret (val, None)
      end
    else
      ret (f64_zero, Some (errors_New "could not parse ping output")).

Definition checkHTTP (host scheme : string) : M (Z * option error) :=
  emit (EvCheckHTTP host scheme) ;;
  let host := TrimPrefix host "http://" in
  let host := TrimPrefix host "https://" in
  let url := scheme ++ "://" ++ host in
  emit (EvNewRequest "HEAD" url) ;;
  match url_Parse wd url with
  | Some e => ret (0%Z, Some (errors_New (url_Error_Error e)))
  | None =>
      emit (EvDo "HEAD" url) ;;
      match client_Do wd "HEAD" url with
      | inr e => ret (0%Z, Some (errors_New (url_Error_Error e)))
      | inl StatusCode => ret (StatusCode, None)
      end
  end.

(** The closure [sendError] of [handleRequest]. *)
Definition sendError (status : Z) (msg : string) : M unit :=
  WriteHeader status ;;
  err <- Encode (json_Marshal_map [("error", msg)]) ;;
  match err with
  | Some e => log_Printf ("Failed to write error response: " ++ error_Error e)
  | None => ret tt
  end.

(** The cases of the handler's [select]. *)
Inductive select_case := CaseSend | CaseDone | CaseDefault.

(** Go's [select]: among the communications that can proceed one is
    chosen (by the runtime's choice when there are several); [default] runs
    only when none can. A send on a buffered channel can proceed while the
    buffer is not full. *)
Definition select_gate : M select_case :=
  c <- get_chan ;;
  let can_send := (chan_len c <? chan_cap c)%nat in
  let can_recv := ctx_Done wd in
  match can_send, can_recv with
  | true, true => ret (if select_pick_send wd then CaseSend else CaseDone)
  | true, false => ret CaseSend
  | false, true => ret CaseDone
  | false, false => ret CaseDefault
  end.

Definition chan_send : M unit :=
  update_chan (fun c => {| chan_cap := chan_cap c; chan_len := S (chan_len c) |}) ;;
  emit EvChanSend.

Definition chan_recv : M unit :=
  update_chan (fun c => {| chan_cap := chan_cap c; chan_len := pred (chan_len c) |}) ;;
  emit EvChanRecv.

(** [defer f()] followed by the rest of the function body. *)
Definition defer {A} (deferred : M unit) (body : M A) : M A :=
  a <- body ;; deferred ;; ret a.

Definition neqb (a b : string) : bool := negb (a =? b)%string.

(** Step 4 of [handleRequest], method selection. *)
Definition select_method (method : string) : string :=
  if neqb method "http" && neqb method "https" then "ping" else method.

(** Step 5 of [handleRequest], the [switch method]: the executor's result
    is stored in [result], of type [any]. *)
Definition execute (method host : string) : M (any * option error) :=
  if (method =? "http")%string then
    x <- checkHTTP host "http" ;;
    ret (any_int (fst x), snd x)
  else if (method =? "https")%string then
    x <- checkHTTP host "https" ;;
    ret (any_int (fst x), snd x)
  else
    x <- checkPing host ;;
    ret (any_float64 (fst x), snd x).

Definition handleRequest (r : Request) : M unit :=
  Header_Set "Content-Type" "application/json" ;;
  (* 1. API Key Check *)
  let query := URL_Query r in
  let userKey := Get query "key" in
  if neqb apiKey "" && neqb userKey apiKey then
    sendError 403 "Auth failed"
  else
  (* 2. Parameter Validation *)
  let host := Get query "host" in
  if (host =? "")%string then
    sendError 400 "host required"
  else
  (* 3. Concurrency Limiting *)
  c <- select_gate ;;
  match c with
  | CaseDone => emit EvCtxDone
  | CaseDefault =>
      emit EvSelectDefault ;;
      sendError 503 "Server is too busy, try again later"
  | CaseSend =>
      chan_send ;;
      defer chan_recv (
        (* 4. Method Selection *)
        let method := select_method (Get query "method") in
        (* 5. Execution *)
        res <- execute method host ;;
        let (result, err) := res : any * option error in
        (* 6. Response *)
        let resp :=
          match err with
          | Some e => {| Host := host; Type' := method;
                         Result := any_int 0; Error := error_Error e |}
          | None => {| Host := host; Type' := method;
                       Result := result; Error := "" |}
          end in
        err <- Encode (json_Marshal_Response resp) ;;
        match err with
        | Some e => log_Printf ("JSON encode error: " ++ error_Error e)
        | None => ret tt
        end)
  end.

End Program.

(** A request is served against the semaphore as it stands and a fresh
    [ResponseWriter]. *)
Definition initial (c : chan) : State :=
  {| concurrencyLimit := c; w := new_ResponseWriter; trace := [];
     logged := [] |}.

Definition serve (wd : World) (apiKey : string) (c : chan) (r : Request) : State :=
  snd (handleRequest wd apiKey r (initial c)).

(** ** What is read off a run *)

Definition is_gate_event (e : Event) : bool :=
  match e with
  | EvChanSend | EvChanRecv | EvCtxDone | EvSelectDefault => true
  | _ => false
  end.

Definition is_probe_event (e : Event) : bool :=
  match e with
  | EvCheckPing _ | EvCheckHTTP _ _ | EvExec _ | EvNewRequest _ _
  | EvDo _ _ => true
  | _ => false
  end.

(** The Admission Gate was consulted. *)
Definition gate_consulted (s : State) : bool := existsb is_gate_event (trace s).

(** A slot was taken. *)
Definition slot_taken (s : State) : bool :=
  existsb (fun e => match e with EvChanSend => true | _ => false end) (trace s).

(** A probe was started. *)
Definition probe_ran (s : State) : bool := existsb is_probe_event (trace s).

(** Nothing was sent: no status line and no body. *)
Definition silent (s : State) : bool :=
  match rw_status (w s), rw_body (w s) with
  | None, [] => true
  | _, _ => false
  end.

(** ** The pattern, declaratively *)

(** The byte after a maximal run of digits: none, or not a digit. *)
Definition no_digit_head (s : string) : bool :=
  match s with
  | EmptyString => true
  | String c _ => negb (is_digit c)
  end.

(** The pattern [/(\d+\.\d+)/(\d+\.\d+)/] matches [s] at offset [i], with
    the groups [g1] and [g2]. *)
Definition matches_at (s : string) (i : nat) (g1 g2 : string) : Prop :=
  is_decimal g1 /\ is_decimal g2 /\
  exists rest, Str.drop i s = "/" ++ g1 ++ "/" ++ g2 ++ "/" ++ rest.




(** [g1] and [g2] are the groups of the leftmost occurrence of the pattern
    in [s]: what [FindStringSubmatch] reports ([first_match_iff]). *)
Definition first_match (s g1 g2 : string) : Prop :=
  exists i, matches_at s i g1 g2 /\
            forall j h1 h2, (j < i)%nat -> ~ matches_at s j h1 h2.



(** What a computation of the handler returns and what it does to the
    outside; neither depends on the state it starts from
    ([checkPing_run], [checkHTTP_run]). *)
Definition result_of {A} (m : M A) : A := fst (m (initial (make_chan 0))).

Definition events_of {A} (m : M A) : list Event :=
  trace (snd (m (initial (make_chan 0)))).

(** [s] after the events [evs]. *)
Definition with_events (s : State) (evs : list Event) : State :=
  {| concurrencyLimit := concurrencyLimit s; w := w s;
     trace := (trace s ++ evs)%list; logged := logged s |}.

(** The argument vector of the external utility. *)
Definition ping_argv (host : string) : list string :=
  ["ping"; "-c"; "3"; "-W"; "2"; "-q"; host].

(** The request passes step 1: no credential is configured, or the
    supplied [key] is the configured one. *)
Definition authorized (apiKey : string) (r : Request) : Prop :=
  apiKey = "" \/ Get (URL_Query r) "key" = apiKey.

(** The URL [checkHTTP] requests. *)
Definition http_url (host scheme : string) : string :=
  scheme ++ "://" ++ TrimPrefix (TrimPrefix host "http://") "https://".

(** Zero, a positive finite number or [+Inf]: not NaN, not negative. *)
Definition f64_nonneg (f : float64) : Prop :=
  match f with
  | S754_zero false | S754_finite false _ _ | S754_infinity false => True
  | _ => False
  end.

(** What the handler logs after [Encode] passed [body] to [w.Write]: one
    line when the write failed, none when it succeeded. *)
Definition write_log (wd : World) (prefix : string) (body : json)
  : list string :=
  match w_Write wd body with
  | Some e => [prefix ++ error_Error e]
  | None => []
  end.

(** The state a request leaves behind when it ends in [sendError]. *)
Definition rejected (wd : World) (c : chan) (status : Z) (msg : string)
    (evs : list Event) : State :=
  {| concurrencyLimit := c;
     w := {| rw_header := [("Content-Type", "application/json")];
             rw_status := Some status;
             rw_body := [[("error", JString msg)]] |};
     trace := evs;
     logged := write_log wd "Failed to write error response: "
                         [("error", JString msg)] |}.

(** The state a request that got a slot leaves behind: the slot is back, the
    status is 200 and one body was written. *)
Definition answered (wd : World) (c : chan) (body : json)
    (evs : list Event) : State :=
  {| concurrencyLimit := c;
     w := {| rw_header := [("Content-Type", "application/json")];
             rw_status := Some 200%Z;
             rw_body := [body] |};
     trace := (EvChanSend :: evs ++ [EvChanRecv])%list;
     logged := write_log wd "JSON encode error: " body |}.

(** The state an abandoned request leaves behind: nothing was written. *)
Definition abandoned (c : chan) : State :=
  {| concurrencyLimit := c;
     w := {| rw_header := [("Content-Type", "application/json")];
             rw_status := None;
             rw_body := [] |};
     trace := [EvCtxDone];
     logged := [] |}.

(** [select] takes the send: a slot is free and, if the context is done
    too, the runtime's choice falls on the send. *)
Definition granted (wd : World) (c : chan) : Prop :=
  (chan_len c < chan_cap c)%nat /\
  (ctx_Done wd = false \/ select_pick_send wd = true).

(** The handler ends in one of six ways. *)
Inductive outcome (wd : World) (apiKey : string) (c : chan) (r : Request)
  : State -> Prop :=
| out_forbidden :
    apiKey <> "" -> Get (URL_Query r) "key" <> apiKey ->
    outcome wd apiKey c r (rejected wd c 403 "Auth failed" [])
| out_bad_request :
    authorized apiKey r -> Get (URL_Query r) "host" = "" ->
    outcome wd apiKey c r (rejected wd c 400 "host required" [])
| out_busy :
    authorized apiKey r -> Get (URL_Query r) "host" <> "" ->
    (chan_cap c <= chan_len c)%nat -> ctx_Done wd = false ->
    outcome wd apiKey c r
      (rejected wd c 503 "Server is too busy, try again later" [EvSelectDefault])
| out_abandoned :
    authorized apiKey r -> Get (URL_Query r) "host" <> "" ->
    ctx_Done wd = true ->
    (chan_cap c <= chan_len c)%nat \/ select_pick_send wd = false ->
    outcome wd apiKey c r (abandoned c)
| out_probe_failed res e :
    let host := Get (URL_Query r) "host" in
    let method := select_method (Get (URL_Query r) "method") in
    authorized apiKey r -> host <> "" -> granted wd c ->
    result_of (execute wd method host) = (res, Some e) ->
    error_Error e <> "" ->
    outcome wd apiKey c r
      (answered wd c [("host", JString host); ("type", JString method);
                   ("result", JInt 0); ("error", JString (error_Error e))]
                (events_of (execute wd method host)))
| out_probe_ok res j :
    let host := Get (URL_Query r) "host" in
    let method := select_method (Get (URL_Query r) "method") in
    authorized apiKey r -> host <> "" -> granted wd c ->
    result_of (execute wd method host) = (res, None) ->
    marshal_any res = Some j -> is_number j = true ->
    outcome wd apiKey c r
      (answered wd c [("host", JString host); ("type", JString method);
                   ("result", j)]
                (events_of (execute wd method host))).

(** Worlds for the examples: the utility prints [out] and ends as [st],
    every URL parses, the HTTP client answers [http], every write to the
    client succeeds. Quoting is the one of plain printable text. *)
Definition example_world (out : string) (st : proc_status)
    (http : Z + url_Error) (done pick : bool) : World :=
  {| strconv_Quote := fun s => Str.dquote ++ s ++ Str.dquote;
     strconv_FormatFloat_g := fun _ _ _ => "";
     os_exec := fun _ => (out, st);
     url_Parse := fun _ => None;
     client_Do := fun _ _ => http;
     w_Write := fun _ => None;
     ctx_Done := done;
     select_pick_send := pick |}.

(** The summary line of iputils [ping -q], the utility the Dockerfile
    installs. *)
Definition iputils_summary : string :=
  "rtt min/avg/max/mdev = 0.031/0.045/0.060/0.012 ms".

(** The summary line iputils prints for the four statistics. *)
Definition iputils_line (mn avg mx mdev : string) : string :=
  "rtt min/avg/max/mdev = " ++ mn ++ "/" ++ avg ++ "/" ++ mx ++ "/" ++ mdev
  ++ " ms".

(** ** Startup: main *)

(** The largest [int] of a 64-bit platform. *)
Definition maxInt64 : Z := 2 ^ 63 - 1.

(** [strconv.Atoi] (64-bit [int]): an optional sign, then decimal digits and
    nothing else. A number out of range comes back clamped, with [ErrRange];
    any other text gives 0 with [ErrSyntax]. *)
Definition Atoi (s : string) : Z * option NumErr :=
  match s with
  | EmptyString => (0%Z, Some ErrSyntax)
  | String c rest =>
      let neg := (c =? "-")%char in
      let ds := if (c =? "-")%char || (c =? "+")%char then rest else s in
      if digits1 ds then
        let n := digits_val 0 ds in
        if neg then
          if (n <=? maxInt64 + 1)%Z then ((- n)%Z, None)
          else ((- (maxInt64 + 1))%Z, Some ErrRange)
        else
          if (n <=? maxInt64)%Z then (n, None)
          else (maxInt64, Some ErrRange)
      else (0%Z, Some ErrSyntax)
  end.

(** The verb [%d] of [fmt]. *)
Definition Itoa (z : Z) : string := NilZero.string_of_int (Z.to_int z).

(** What [main] has set up when it starts the listener: the two globals and
    the lines it logged. *)
Record Startup := {
  st_apiKey : string;
  st_concurrencyLimit : chan;
  st_log : list string
}.

(** [main], up to [server.ListenAndServe()]; [Getenv] is [os.Getenv], the
    empty string for a variable that is not set. *)
Definition main (Getenv : string -> string) : Startup :=
  let apiKey := Getenv "API_KEY" in
  let log1 :=
    if (apiKey =? "")%string then ["WARNING: API_KEY not set!"] else [] in
  let limitStr := Getenv "CONCURRENCY_LIMIT" in
  let limit := 20%Z in
  let (limit, log2) :=
    if neqb limitStr "" then
      let (parsedLimit, err) := Atoi limitStr in
      match err with
      | None =>
          if (0 <? parsedLimit)%Z then (parsedLimit, [])
          else (limit,
                ["WARNING: Invalid CONCURRENCY_LIMIT '" ++ limitStr
                 ++ "', using default " ++ Itoa limit])
      | Some _ =>
          (limit,
           ["WARNING: Invalid CONCURRENCY_LIMIT '" ++ limitStr
            ++ "', using default " ++ Itoa limit])
      end
    else (limit, []) in
  {| st_apiKey := apiKey;
     st_concurrencyLimit := make_chan (Z.to_nat limit);
     st_log := (log1 ++ log2
                ++ [("Concurrency limit set to " ++ Itoa limit)%string;
                    "Server started on :80"])%list
  |}.

(** The text of [limitStr] is a positive [int]: digits, at most one [+]
    before them, and a value from 1 to [maxInt64]. *)
Definition valid_limit (limitStr : string) (n : Z) : Prop :=
  exists ds, (limitStr = ds \/ limitStr = "+" ++ ds) /\
             digits1 ds = true /\ n = digits_val 0 ds /\
             (0 < n <= maxInt64)%Z.

(** The warning [main] logs for a limit it does not take. *)
Definition invalid_limit_warning (limitStr : string) : string :=
  "WARNING: Invalid CONCURRENCY_LIMIT '" ++ limitStr
  ++ "', using default 20".

(** The first request after startup. *)
Definition serve_after_main (wd : World) (Getenv : string -> string)
    (r : Request) : State :=
  let st := main Getenv in
  serve wd (st_apiKey st) (st_concurrencyLimit st) r.

(** An environment with the two variables [main] reads. *)
Definition env (key limit : string) : string -> string :=
  fun name =>
    if (name =? "API_KEY")%string then key
    else if (name =? "CONCURRENCY_LIMIT")%string then limit
    else "".

(** ** More to read off a run and off an output *)

(** In [s] no slash is followed at once by a digit: the pattern, which
    starts with a slash and a digit, cannot start in such a text. *)
Fixpoint slash_digit_free (s : string) : bool :=
  match s with
  | EmptyString => true
  | String c s' =>
      match s' with
      | String d _ =>
          negb ((c =? "/")%char && is_digit d) && slash_digit_free s'
      | EmptyString => true
      end
  end.

(** [s] holds no slash. *)
Fixpoint no_slash (s : string) : bool :=
  match s with
  | EmptyString => true
  | String c s' => negb (c =? "/")%char && no_slash s'
  end.

(** [s] matches [0+]. *)
Fixpoint all_zeros (s : string) : bool :=
  match s with
  | EmptyString => true
  | String c s' => (c =? "0")%char && all_zeros s'
  end.

(** The six traces a request can leave; [method] is the selected one. *)
Inductive trace_of_request (host method : string) : list Event -> Prop :=
| tr_rejected_early : trace_of_request host method []
| tr_busy : trace_of_request host method [EvSelectDefault]
| tr_abandoned : trace_of_request host method [EvCtxDone]
| tr_ping :
    method = "ping" ->
    trace_of_request host method
      [EvChanSend; EvCheckPing host; EvExec (ping_argv host); EvChanRecv]
| tr_http_not_sent :
    method = "http" \/ method = "https" ->
    trace_of_request host method
      [EvChanSend; EvCheckHTTP host method;
       EvNewRequest "HEAD" (http_url host method); EvChanRecv]
| tr_http_sent :
    method = "http" \/ method = "https" ->
    trace_of_request host method
      [EvChanSend; EvCheckHTTP host method;
       EvNewRequest "HEAD" (http_url host method);
       EvDo "HEAD" (http_url host method); EvChanRecv].

(** The lines a request logs, read off what it wrote: one line for a body
    whose [w.Write] failed, with the words of [sendError] for a rejection and
    of step 6 for an envelope. *)
Definition write_failures (wd : World) (s : State) : list string :=
  flat_map
    (write_log wd (match rw_status (w s) with
                   | Some 200%Z => "JSON encode error: "
                   | _ => "Failed to write error response: "
                   end))
    (rw_body (w s)).

(** [wd] with a client that has gone: every [w.Write] fails with [e]. *)
Definition with_write_error (wd : World) (e : error) : World :=
  {| strconv_Quote := strconv_Quote wd;
     strconv_FormatFloat_g := strconv_FormatFloat_g wd;
     os_exec := os_exec wd;
     url_Parse := url_Parse wd;
     client_Do := client_Do wd;
     w_Write := fun _ => Some e;
     ctx_Done := ctx_Done wd;
     select_pick_send := select_pick_send wd |}.

(** A world for the examples in which [url.Parse] refuses every URL with
    [e]. *)
Definition refusing_world (e : url_Error) : World :=
  {| strconv_Quote := fun s => Str.dquote ++ s ++ Str.dquote;
     strconv_FormatFloat_g := fun _ _ _ => "";
     os_exec := fun _ => ("", Exited 1);
     url_Parse := fun _ => Some e;
     client_Do := fun _ _ => inl 200%Z;
     w_Write := fun _ => None;
     ctx_Done := false;
     select_pick_send := true |}.

(** Unfolds the handler up to its first branch. *)
Ltac start_serve :=
  unfold serve, handleRequest, bind;
  cbn [Header_Set update_w initial concurrencyLimit w trace logged
       new_ResponseWriter rw_header rw_status rw_body].

(** Closes a case of the handler that ends in a write to the client. *)
Ltac end_write wd :=
  unfold rejected, answered, write_log; cbn;
  destruct (w_Write wd _); reflexivity.

(** ** Lemmas on strings *)

Module StrFacts.

Lemma append_nil_r (s : string) : s ++ "" = s.
Proof. induction s as [|c s IH]; simpl; [reflexivity | now rewrite IH]. Qed.

Lemma append_assoc (a b c : string) : (a ++ b) ++ c = a ++ (b ++ c).
Proof. induction a as [|x a IH]; simpl; [reflexivity | now rewrite IH]. Qed.

Lemma length_append (a b : string) :
  String.length (a ++ b) = (String.length a + String.length b)%nat.
Proof. induction a as [|x a IH]; simpl; [reflexivity | now rewrite IH]. Qed.

Lemma drop_append (a b : string) :
  Str.drop (String.length a) (a ++ b) = b.
Proof. induction a as [|x a IH]; simpl; [reflexivity | exact IH]. Qed.

End StrFacts.

(** ** Lemmas on the pattern *)

Lemma span_digits_app (a r : string) :
  all_digits a = true -> no_digit_head r = true ->
  span_digits (a ++ r) = (a, r).
Proof.
  intros Ha Hr. induction a as [|c a IH]; simpl in *.
  - destruct r as [|c r]; simpl in *; [reflexivity|].
    destruct (is_digit c); [discriminate | reflexivity].
  - apply andb_true_iff in Ha as [Hc Ha].
    rewrite Hc, (IH Ha). reflexivity.
Qed.

Lemma span_digits_inv (s a r : string) :
  span_digits s = (a, r) ->
  s = a ++ r /\ all_digits a = true /\ no_digit_head r = true.
Proof.
  revert a r. induction s as [|c s IH]; simpl; intros a r H.
  - inversion H; subst. repeat split.
  - destruct (is_digit c) eqn:Hc.
    + destruct (span_digits s) as [d r'] eqn:Hs. inversion H; subst.
      destruct (IH d r eq_refl) as (-> & Hd & Hr).
      simpl. rewrite Hc, Hd. repeat split. exact Hr.
    + inversion H; subst. simpl. rewrite Hc. repeat split.
Qed.

Lemma digits1_all (a : string) : digits1 a = true -> all_digits a = true.
Proof. destruct a; [discriminate | trivial]. Qed.

Lemma match_decimal_app (a b r : string) :
  digits1 a = true -> digits1 b = true -> no_digit_head r = true ->
  match_decimal (a ++ "." ++ b ++ r) = Some (a ++ "." ++ b, r).
Proof.
  intros Ha Hb Hr. unfold match_decimal.
  rewrite (span_digits_app a ("." ++ b ++ r) (digits1_all _ Ha) eq_refl).
  destruct a as [|ca a]; [discriminate|].
  cbn [append]. rewrite (span_digits_app b r (digits1_all _ Hb) Hr).
  destruct b as [|cb b]; [discriminate | reflexivity].
Qed.

Lemma match_decimal_inv (s g r : string) :
  match_decimal s = Some (g, r) ->
  is_decimal g /\ s = g ++ r /\ no_digit_head r = true.
Proof.
  unfold match_decimal. intros H.
  destruct (span_digits s) as [a r1] eqn:Ha.
  destruct a as [|ca a]; [discriminate|].
  destruct r1 as [|c1 r1]; [discriminate|].
  destruct (ascii_dec c1 ".") as [->|Hne].
  2:{ exfalso. revert H.
      destruct c1 as [[] [] [] [] [] [] [] []]; try discriminate.
      now contradiction Hne. }
  destruct (span_digits r1) as [b r2] eqn:Hb.
  destruct b as [|cb b]; [discriminate|].
  inversion H; subst; clear H.
  apply span_digits_inv in Ha as (-> & Ha & _).
  apply span_digits_inv in Hb as (-> & Hb & Hr).
  split; [|split].
  - exists (String ca a), (String cb b). repeat split; assumption.
  - change (String ca a ++ "." ++ String cb b ++ r
            = (String ca a ++ "." ++ String cb b) ++ r).
    now rewrite !StrFacts.append_assoc.
  - exact Hr.
Qed.

Lemma is_decimal_app_rest (g rest : string) :
  is_decimal g -> no_digit_head rest = true ->
  match_decimal (g ++ rest) = Some (g, rest).
Proof.
  intros (a & b & Ha & Hb & ->) Hr.
  rewrite !StrFacts.append_assoc. now apply match_decimal_app.
Qed.

Lemma match_here_intro (g1 g2 rest : string) :
  is_decimal g1 -> is_decimal g2 ->
  match_here ("/" ++ g1 ++ "/" ++ g2 ++ "/" ++ rest)
  = Some ["/" ++ g1 ++ "/" ++ g2 ++ "/"; g1; g2].
Proof.
  intros H1 H2. cbn [match_here append].
  rewrite (is_decimal_app_rest g1 (String "/" _) H1 eq_refl).
  rewrite (is_decimal_app_rest g2 (String "/" _) H2 eq_refl). reflexivity.
Qed.

Lemma slash_inv (c : ascii) (A : Type) (x y : A) (z : A) :
  match c with "/"%char => x | _ => y end = z ->
  (c = "/"%char /\ x = z) \/ y = z.
Proof.
  destruct c as [[] [] [] [] [] [] [] []]; intros H; auto.
Qed.

Lemma match_here_inv (s : string) (m : list string) :
  match_here s = Some m ->
  exists g1 g2 rest,
    is_decimal g1 /\ is_decimal g2 /\
    s = "/" ++ g1 ++ "/" ++ g2 ++ "/" ++ rest /\
    m = ["/" ++ g1 ++ "/" ++ g2 ++ "/"; g1; g2].
Proof.
  destruct s as [|c r0]; [discriminate|]. cbn [match_here]. intros H.
  apply slash_inv in H as [[-> H]|H]; [|discriminate].
  destruct (match_decimal r0) as [[g1 r1]|] eqn:E1; [|discriminate].
  destruct r1 as [|c1 r1]; [discriminate|].
  apply slash_inv in H as [[-> H]|H]; [|discriminate].
  destruct (match_decimal r1) as [[g2 r2]|] eqn:E2; [|discriminate].
  destruct r2 as [|c2 r2]; [discriminate|].
  apply slash_inv in H as [[-> H]|H]; [|discriminate].
  inversion H; subst; clear H.
  apply match_decimal_inv in E1 as (D1 & -> & _).
  apply match_decimal_inv in E2 as (D2 & -> & _).
  exists g1, g2, r2. repeat split; try assumption.
Qed.

Lemma matches_at_iff (s : string) (i : nat) (g1 g2 : string) :
  matches_at s i g1 g2 <->
  match_here (Str.drop i s) = Some ["/" ++ g1 ++ "/" ++ g2 ++ "/"; g1; g2].
Proof.
  split.
  - intros (H1 & H2 & rest & ->). now apply match_here_intro.
  - intros H. apply match_here_inv in H
      as (h1 & h2 & rest & D1 & D2 & E & Em).
    inversion Em; subst. repeat split; try assumption. now exists rest.
Qed.

Lemma FindStringSubmatch_eq (s : string) :
  FindStringSubmatch s =
  match match_here s with
  | Some m => m
  | None => match s with
            | EmptyString => []
            | String _ s' => FindStringSubmatch s'
            end
  end.
Proof. destruct s; reflexivity. Qed.

(** The leftmost match wins. *)
Lemma FindStringSubmatch_first (i : nat) (s : string) (m : list string) :
  (forall j, (j < i)%nat -> match_here (Str.drop j s) = None) ->
  match_here (Str.drop i s) = Some m ->
  FindStringSubmatch s = m.
Proof.
  revert s. induction i as [|i IH]; intros s Hpre Hm.
  - cbn [Str.drop] in Hm. now rewrite FindStringSubmatch_eq, Hm.
  - destruct s as [|c s]; [discriminate|].
    rewrite FindStringSubmatch_eq.
    pose proof (Hpre 0%nat ltac:(lia)) as H0.
    cbn [Str.drop] in H0. rewrite H0.
    apply IH; [|exact Hm]. intros j Hj. apply (Hpre (S j)). lia.
Qed.


(** What [FindStringSubmatch] returns: [nil], or the full match and the two
    groups of the leftmost occurrence. *)
Lemma FindStringSubmatch_shape (s : string) :
  FindStringSubmatch s = [] \/
  exists pre g1 g2 rest,
    is_decimal g1 /\ is_decimal g2 /\
    s = pre ++ "/" ++ g1 ++ "/" ++ g2 ++ "/" ++ rest /\
    (forall i, (i < String.length pre)%nat ->
               match_here (Str.drop i s) = None) /\
    FindStringSubmatch s = ["/" ++ g1 ++ "/" ++ g2 ++ "/"; g1; g2].
Proof.
  induction s as [|c s IH]; [now left|].
  rewrite FindStringSubmatch_eq.
  destruct (match_here (String c s)) as [m|] eqn:E.
  - right. apply match_here_inv in E as (g1 & g2 & rest & D1 & D2 & Es & ->).
    exists "", g1, g2, rest. repeat split; try assumption.
    intros i Hi. simpl in Hi. lia.
  - destruct IH as [IH|(pre & g1 & g2 & rest & D1 & D2 & Es & Hpre & Hf)].
    + now left.
    + right. exists (String c pre), g1, g2, rest.
      repeat split; try assumption.
      * cbn [append]. f_equal. exact Es.
      * intros [|i] Hi; [exact E|]. apply Hpre. simpl in Hi. lia.
Qed.


Lemma match_here_none_iff (s : string) (j : nat) :
  match_here (Str.drop j s) = None <-> forall h1 h2, ~ matches_at s j h1 h2.
Proof.
  split.
  - intros H h1 h2 Hm. apply matches_at_iff in Hm. congruence.
  - intros H. destruct (match_here (Str.drop j s)) as [m|] eqn:E; [|reflexivity].
    exfalso. pose proof E as E'.
    apply match_here_inv in E' as (g1 & g2 & rest & D1 & D2 & Es & ->).
    apply (H g1 g2). now apply matches_at_iff.
Qed.

Lemma first_match_iff (s g1 g2 : string) :
  first_match s g1 g2 <->
  FindStringSubmatch s = ["/" ++ g1 ++ "/" ++ g2 ++ "/"; g1; g2].
Proof.
  split.
  - intros (i & Hi & Hlt). apply (FindStringSubmatch_first i).
    + intros j Hj. apply match_here_none_iff. intros h1 h2. now apply Hlt.
    + now apply matches_at_iff.
  - intros H. destruct (FindStringSubmatch_shape s)
      as [Hn|(pre & h1 & h2 & rest & D1 & D2 & Es & Hpre & Hf)]; [congruence|].
    rewrite Hf in H. inversion H; subst h1 h2.
    exists (String.length pre). split.
    + repeat split; try assumption. exists rest.
      rewrite Es at 1. apply StrFacts.drop_append.
    + intros j k1 k2 Hj. now apply match_here_none_iff, Hpre.
Qed.


(** The pattern on the summary lines of two ping utilities: iputils ends
    the numbers with a fourth one, busybox does not. *)
Example FindStringSubmatch_iputils :
  FindStringSubmatch iputils_summary = ["/0.045/0.060/"; "0.045"; "0.060"].
Proof. reflexivity. Qed.

Example FindStringSubmatch_busybox :
  FindStringSubmatch "round-trip min/avg/max = 0.031/0.045/0.060 ms" = [].
Proof. reflexivity. Qed.

(** ** Lemmas on float64 and ParseFloat *)

(** The rounding of [ParseFloat] at known values: 0.1, the tie at 2^53 + 1,
    and a number that rounds to zero. *)
Example ParseFloat_tenth :
  ParseFloat "0.1" = (S754_finite false 7205759403792794 (-56), None).
Proof. reflexivity. Qed.

Example ParseFloat_tie_to_even :
  ParseFloat "9007199254740993.0"
  = (S754_finite false 4503599627370496 1, None).
Proof. reflexivity. Qed.

Example ParseFloat_zero : ParseFloat "0.000" = (f64_zero, None).
Proof. reflexivity. Qed.


Lemma shr_1_nonneg (mrs : shr_record) :
  (0 <= shr_m mrs -> 0 <= shr_m (shr_1 mrs))%Z.
Proof.
  destruct mrs as [m r s]. simpl.
  destruct m as [|[p|p|]|[p|p|]]; simpl; lia.
Qed.

Lemma iter_shr_1_nonneg (p : positive) (mrs : shr_record) :
  (0 <= shr_m mrs -> 0 <= shr_m (iter_pos shr_1 p mrs))%Z.
Proof.
  revert mrs. induction p as [p IH|p IH|]; intros mrs H; simpl.
  - apply IH, IH, shr_1_nonneg, H.
  - apply IH, IH, H.
  - apply shr_1_nonneg, H.
Qed.

Lemma shr_fexp_nonneg (prec emax m e : Z) (l : location) :
  (0 <= m -> 0 <= shr_m (fst (shr_fexp prec emax m e l)))%Z.
Proof.
  intros H. unfold shr_fexp, shr.
  assert (H0 : (0 <= shr_m (shr_record_of_loc m l))%Z).
  { destruct l as [|[]]; exact H. }
  destruct (fexp prec emax (Zdigits2 m + e) - e)%Z; simpl; auto.
  now apply iter_shr_1_nonneg.
Qed.

Lemma round_nearest_even_nonneg (m : Z) (l : location) :
  (0 <= m -> 0 <= round_nearest_even m l)%Z.
Proof.
  intros H. destruct l as [|[]]; simpl; try lia.
  destruct (Z.even m); lia.
Qed.

(** Rounding a non-negative mantissa never gives NaN or a negative value. *)
Lemma binary_round_aux_nonneg (prec emax m e : Z) (l : location) :
  (0 <= m)%Z -> f64_nonneg (binary_round_aux prec emax false m e l).
Proof.
  intros H. unfold binary_round_aux.
  pose proof (shr_fexp_nonneg prec emax m e l H) as H1.
  destruct (shr_fexp prec emax m e l) as [mrs' e']. simpl in H1.
  pose proof (shr_fexp_nonneg prec emax _ e' loc_Exact
                (round_nearest_even_nonneg _ (loc_of_shr_record mrs') H1))
    as H2.
  destruct (shr_fexp prec emax _ e' loc_Exact) as [mrs'' e'']. simpl in H2.
  destruct (shr_m mrs''); simpl; try lia; auto.
  destruct (e'' <=? emax - prec)%Z; exact I.
Qed.

Lemma SFdiv_nonneg (prec emax : Z) (p q : positive) :
  f64_nonneg
    (SFdiv prec emax (S754_finite false p 0) (S754_finite false q 0)).
Proof.
  unfold SFdiv, SFdiv_core_binary.
  set (m' := match (_ - _ - _)%Z with Z0 => _ | Zpos _ => _ | Zneg _ => _ end).
  assert (Hm : (0 <= m')%Z).
  { subst m'. destruct (_ - _ - _)%Z; try lia. apply Z.shiftl_nonneg. lia. }
  pose proof (Z.div_pos m' (Zpos q) Hm ltac:(lia)) as Hq.
  unfold Z.div in Hq. destruct (Z.div_eucl m' (Zpos q)) as [qq r].
  now apply binary_round_aux_nonneg.
Qed.

Lemma decimal_to_f64_nonneg (n : Z) (k : nat) :
  f64_nonneg (decimal_to_f64 n k).
Proof.
  destruct n; simpl; try exact I. apply SFdiv_nonneg.
Qed.

(** On a decimal, [ParseFloat] rounds the number written; the only error
    is the range error, reported with [+Inf]. *)
Lemma ParseFloat_decimal (a b : string) :
  digits1 a = true -> digits1 b = true ->
  ParseFloat (a ++ "." ++ b) =
  let f := decimal_to_f64 (digits_val 0 (a ++ b)) (String.length b) in
  match f with
  | S754_infinity _ => (f, Some {| Num := a ++ "." ++ b; Err := ErrRange |})
  | _ => (f, None)
  end.
Proof.
  intros Ha Hb. unfold ParseFloat.
  rewrite (span_digits_app a ("." ++ b) (digits1_all _ Ha) eq_refl).
  destruct a as [|ca a]; [discriminate|]. cbn [append].
  pose proof (span_digits_app b "" (digits1_all _ Hb) eq_refl) as Hs.
  rewrite StrFacts.append_nil_r in Hs. rewrite Hs.
  destruct b as [|cb b]; [discriminate|]. reflexivity.
Qed.

Lemma ParseFloat_decimal_cases (s : string) :
  is_decimal s ->
  (exists v, ParseFloat s = (v, None) /\
             (v = f64_zero \/ exists m e, v = S754_finite false m e)) \/
  ParseFloat s = (S754_infinity false, Some {| Num := s; Err := ErrRange |}).
Proof.
  intros (a & b & Ha & Hb & ->). rewrite (ParseFloat_decimal a b Ha Hb).
  cbv zeta.
  pose proof (decimal_to_f64_nonneg (digits_val 0 (a ++ b)) (String.length b))
    as Hn.
  destruct (decimal_to_f64 _ _) as [[]|[]| |[] m e]; simpl in Hn;
    try contradiction.
  - left. eexists; split; [reflexivity|]. now left.
  - now right.
  - left. eexists; split; [reflexivity|]. right. now exists m, e.
Qed.

Lemma f64_lt_zero_not_le (v : float64) :
  f64_lt f64_zero v = true -> f64_le v f64_zero = false.
Proof. destruct v as [[]|[]| |[] m e]; cbv; congruence. Qed.

(** ** checkPing *)

Lemma checkPing_run (wd : World) (host : string) (s : State) :
  checkPing wd host s =
  (result_of (checkPing wd host),
   with_events s [EvCheckPing host; EvExec (ping_argv host)]).
Proof.
  unfold result_of, checkPing, bind, emit, ret, with_events, ping_argv.
  cbn [fst snd trace concurrencyLimit w initial].
  rewrite <- app_assoc. cbn [app].
  destruct (os_exec wd _) as [output st].
  destruct (run_failed st); [reflexivity|].
  destruct (3 <=? _)%nat; [|reflexivity].
  destruct (ParseFloat _) as [val [e|]]; [reflexivity|].
  destruct (f64_le val f64_zero); reflexivity.
Qed.

Lemma checkPing_failed (wd : World) (host out : string) (st : proc_status) :
  os_exec wd (ping_argv host) = (out, st) -> run_failed st = true ->
  result_of (checkPing wd host) =
  (f64_zero, Some (errors_New "ping failed: host unreachable or timeout")).
Proof.
  intros He Hf. unfold result_of, checkPing, bind, emit, ret.
  fold (ping_argv host). rewrite He, Hf. reflexivity.
Qed.

Lemma checkPing_no_match (wd : World) (host out : string) :
  os_exec wd (ping_argv host) = (out, Exited 0) ->
  FindStringSubmatch out = [] ->
  result_of (checkPing wd host) =
  (f64_zero, Some (errors_New "could not parse ping output")).
Proof.
  intros He Hf. unfold result_of, checkPing, bind, emit, ret.
  fold (ping_argv host). rewrite He. cbn [run_failed]. rewrite Hf. reflexivity.
Qed.

Lemma checkPing_match (wd : World) (host out whole g1 g2 : string) :
  os_exec wd (ping_argv host) = (out, Exited 0) ->
  FindStringSubmatch out = [whole; g1; g2] ->
  result_of (checkPing wd host) =
  match ParseFloat g2 with
  | (_, Some e) =>
      (f64_zero,
       Some (errors_New ("parse error: " ++ NumError_Error wd e)))
  | (val, None) =>
      if f64_le val f64_zero
      then (f64_zero,
            Some (errors_New ("invalid ping result: " ++ Sprint_v wd val)))
      else (val, None)
  end.
Proof.
  intros He Hf. unfold result_of, checkPing, bind, emit, ret.
  fold (ping_argv host). rewrite He. cbn [run_failed]. rewrite Hf.
  cbn [List.length Nat.leb nth].
  destruct (ParseFloat g2) as [val [e|]]; [reflexivity|].
  destruct (f64_le val f64_zero); reflexivity.
Qed.


(** What [checkPing] returns is a finite positive number without an error,
    or an error with a message. *)
Lemma checkPing_result_shape (wd : World) (host : string)
    (val : float64) (err : option error) :
  result_of (checkPing wd host) = (val, err) ->
  match err with
  | None => exists m e, val = S754_finite false m e
  | Some e => (error_Error e =? "") = false
  end.
Proof.
  destruct (os_exec wd (ping_argv host)) as [out st] eqn:He.
  destruct (run_failed st) eqn:Hf.
  { rewrite (checkPing_failed wd host out st He Hf).
    intros H; inversion H; reflexivity. }
  assert (st = Exited 0) as ->.
  { destruct st as [[|p|p]| |]; simpl in Hf; congruence. }
  destruct (FindStringSubmatch_shape out)
    as [Hn|(pre & g1 & g2 & rest & D1 & D2 & Es & Hpre & Hm)].
  { rewrite (checkPing_no_match wd host out He Hn).
    intros H; inversion H; reflexivity. }
  rewrite (checkPing_match wd host out _ _ _ He Hm).
  destruct (ParseFloat_decimal_cases g2 D2)
    as [(v & -> & [->|(m & e & ->)])| ->]; cbn;
    intros H; inversion H; subst; try reflexivity.
  now exists m, e.
Qed.

(** ** checkHTTP and the handler, case by case *)

Lemma checkHTTP_run (wd : World) (host scheme : string) (s : State) :
  checkHTTP wd host scheme s =
  (result_of (checkHTTP wd host scheme),
   with_events s (events_of (checkHTTP wd host scheme))).
Proof.
  unfold result_of, events_of, checkHTTP, bind, emit, ret, with_events.
  cbn [fst snd trace concurrencyLimit w initial app].
  destruct (url_Parse wd _) as [e|].
  - cbn. now rewrite <- app_assoc.
  - destruct (client_Do wd _ _) as [code|e]; cbn; now rewrite <- !app_assoc.
Qed.

Lemma checkHTTP_events (wd : World) (host scheme : string) :
  events_of (checkHTTP wd host scheme) =
  EvCheckHTTP host scheme :: EvNewRequest "HEAD" (http_url host scheme)
  :: match url_Parse wd (http_url host scheme) with
     | Some _ => []
     | None => [EvDo "HEAD" (http_url host scheme)]
     end.
Proof.
  unfold events_of, checkHTTP, bind, emit, ret, http_url.
  cbn [fst snd trace concurrencyLimit w initial app].
  destruct (url_Parse wd _) as [e|]; [reflexivity|].
  destruct (client_Do wd _ _) as [code|e]; reflexivity.
Qed.

Lemma checkHTTP_result (wd : World) (host scheme : string) :
  result_of (checkHTTP wd host scheme) =
  match url_Parse wd (http_url host scheme) with
  | Some e => (0%Z, Some (errors_New (url_Error_Error wd e)))
  | None =>
      match client_Do wd "HEAD" (http_url host scheme) with
      | inr e => (0%Z, Some (errors_New (url_Error_Error wd e)))
      | inl code => (code, None)
      end
  end.
Proof.
  unfold result_of, checkHTTP, bind, emit, ret, http_url.
  cbn [fst snd trace concurrencyLimit w initial app].
  destruct (url_Parse wd _) as [e|]; [reflexivity|].
  destruct (client_Do wd _ _) as [code|e]; reflexivity.
Qed.

Lemma execute_run (wd : World) (method host : string) (s : State) :
  execute wd method host s =
  (result_of (execute wd method host),
   with_events s (events_of (execute wd method host))).
Proof.
  unfold result_of, events_of, execute.
  destruct (method =? "http"); [|destruct (method =? "https")]; unfold bind.
  - rewrite (checkHTTP_run wd host "http" s).
    rewrite (checkHTTP_run wd host "http" (initial _)). reflexivity.
  - rewrite (checkHTTP_run wd host "https" s).
    rewrite (checkHTTP_run wd host "https" (initial _)). reflexivity.
  - rewrite (checkPing_run wd host s).
    rewrite (checkPing_run wd host (initial _)). reflexivity.
Qed.

Lemma neqb_true_iff (a b : string) : neqb a b = true <-> a <> b.
Proof.
  unfold neqb. rewrite negb_true_iff. apply String.eqb_neq.
Qed.

Lemma neqb_false_iff (a b : string) : neqb a b = false <-> a = b.
Proof.
  unfold neqb. rewrite negb_false_iff. apply String.eqb_eq.
Qed.

Lemma guard_forbidden (apiKey : string) (r : Request) :
  neqb apiKey "" && neqb (Get (URL_Query r) "key") apiKey = false
  <-> authorized apiKey r.
Proof.
  unfold authorized. rewrite andb_false_iff, !neqb_false_iff. tauto.
Qed.

Lemma serve_forbidden (wd : World) (apiKey : string) (c : chan) (r : Request) :
  apiKey <> "" -> Get (URL_Query r) "key" <> apiKey ->
  serve wd apiKey c r = rejected wd c 403 "Auth failed" [].
Proof.
  intros H1 H2. start_serve.
  apply neqb_true_iff in H1, H2. rewrite H1, H2. end_write wd.
Qed.

Lemma serve_bad_request (wd : World) (apiKey : string) (c : chan) (r : Request) :
  authorized apiKey r -> Get (URL_Query r) "host" = "" ->
  serve wd apiKey c r = rejected wd c 400 "host required" [].
Proof.
  intros H1 H2. start_serve.
  apply guard_forbidden in H1. rewrite H1, H2. end_write wd.
Qed.

Lemma serve_busy (wd : World) (apiKey : string) (c : chan) (r : Request) :
  authorized apiKey r -> Get (URL_Query r) "host" <> "" ->
  (chan_cap c <= chan_len c)%nat -> ctx_Done wd = false ->
  serve wd apiKey c r =
  rejected wd c 503 "Server is too busy, try again later" [EvSelectDefault].
Proof.
  intros H1 H2 H3 H4. start_serve.
  apply guard_forbidden in H1. apply String.eqb_neq in H2. rewrite H1, H2.
  unfold select_gate, bind, get_chan. cbn [concurrencyLimit].
  apply Nat.ltb_ge in H3. rewrite H3, H4. end_write wd.
Qed.

Lemma serve_abandoned (wd : World) (apiKey : string) (c : chan) (r : Request) :
  authorized apiKey r -> Get (URL_Query r) "host" <> "" ->
  ctx_Done wd = true ->
  (chan_cap c <= chan_len c)%nat \/ select_pick_send wd = false ->
  serve wd apiKey c r = abandoned c.
Proof.
  intros H1 H2 H3 H4. start_serve.
  apply guard_forbidden in H1. apply String.eqb_neq in H2. rewrite H1, H2.
  unfold select_gate, bind, get_chan. cbn [concurrencyLimit]. rewrite H3.
  destruct H4 as [H4|H4].
  - apply Nat.ltb_ge in H4. rewrite H4. reflexivity.
  - rewrite H4. destruct (chan_len c <? chan_cap c)%nat; reflexivity.
Qed.

Lemma url_Error_Error_not_empty (wd : World) (e : url_Error) :
  (url_Error_Error wd e =? "") = false.
Proof.
  unfold url_Error_Error. destruct (Op e); reflexivity.
Qed.

(** The message of a probe failure is never empty. *)
Lemma execute_error_not_empty (wd : World) (method host : string)
    (res : any) (e : error) :
  result_of (execute wd method host) = (res, Some e) ->
  (error_Error e =? "") = false.
Proof.
  unfold result_of, execute.
  destruct (method =? "http"); [|destruct (method =? "https")]; unfold bind.
  - rewrite checkHTTP_run. fold (result_of (checkHTTP wd host "http")).
    rewrite checkHTTP_result.
    destruct (url_Parse wd _) as [u|]; [|destruct (client_Do wd _ _) as [k|u]];
      cbn; intros H; inversion H; subst; try apply url_Error_Error_not_empty.
  - rewrite checkHTTP_run. fold (result_of (checkHTTP wd host "https")).
    rewrite checkHTTP_result.
    destruct (url_Parse wd _) as [u|]; [|destruct (client_Do wd _ _) as [k|u]];
      cbn; intros H; inversion H; subst; try apply url_Error_Error_not_empty.
  - rewrite checkPing_run. cbn [fst snd ret].
    destruct (result_of (checkPing wd host)) as [val err] eqn:Hr.
    intros H; inversion H; subst; clear H.
    exact (checkPing_result_shape wd host val (Some e) Hr).
Qed.

(** A probe that succeeds returns a number [encoding/json] can write. *)
Lemma execute_ok_marshal (wd : World) (method host : string) (res : any) :
  result_of (execute wd method host) = (res, None) ->
  exists j, marshal_any res = Some j /\ is_number j = true.
Proof.
  unfold result_of, execute.
  destruct (method =? "http"); [|destruct (method =? "https")]; unfold bind.
  - rewrite checkHTTP_run. cbn [fst snd ret]. intros H; inversion H; subst.
    eexists; split; reflexivity.
  - rewrite checkHTTP_run. cbn [fst snd ret]. intros H; inversion H; subst.
    eexists; split; reflexivity.
  - rewrite checkPing_run. cbn [fst snd ret].
    destruct (result_of (checkPing wd host)) as [val err] eqn:Hr.
    intros H; inversion H; subst; clear H.
    destruct (checkPing_result_shape wd host val None Hr) as (m & e & ->).
    eexists; split; reflexivity.
Qed.

Lemma select_gate_granted (wd : World) (s : State) :
  granted wd (concurrencyLimit s) -> select_gate wd s = (CaseSend, s).
Proof.
  intros [Hlt Hc]. unfold select_gate, bind, get_chan.
  apply Nat.ltb_lt in Hlt. rewrite Hlt.
  destruct Hc as [-> | ->]; [reflexivity|].
  destruct (ctx_Done wd); reflexivity.
Qed.

Lemma serve_granted_error (wd : World) (apiKey : string) (c : chan)
    (r : Request) (res : any) (e : error) :
  let host := Get (URL_Query r) "host" in
  let method := select_method (Get (URL_Query r) "method") in
  authorized apiKey r -> host <> "" -> granted wd c ->
  result_of (execute wd method host) = (res, Some e) ->
  serve wd apiKey c r =
  answered wd c [("host", JString host); ("type", JString method);
                 ("result", JInt 0); ("error", JString (error_Error e))]
           (events_of (execute wd method host)).
Proof.
  intros host method H1 H2 H3 H4. start_serve.
  apply guard_forbidden in H1. apply String.eqb_neq in H2.
  fold host. rewrite H1, H2.
  rewrite select_gate_granted by exact H3.
  unfold chan_send, defer, bind.
  cbn [update_chan emit concurrencyLimit w trace app].
  fold method. rewrite execute_run, H4.
  unfold json_Marshal_Response, marshal_Response.
  cbn [Result marshal_any Error Host Type'].
  rewrite (execute_error_not_empty wd method host res e H4).
  destruct c as [cap len]. end_write wd.
Qed.

Lemma serve_granted_ok (wd : World) (apiKey : string) (c : chan)
    (r : Request) (res : any) (j : jvalue) :
  let host := Get (URL_Query r) "host" in
  let method := select_method (Get (URL_Query r) "method") in
  authorized apiKey r -> host <> "" -> granted wd c ->
  result_of (execute wd method host) = (res, None) ->
  marshal_any res = Some j ->
  serve wd apiKey c r =
  answered wd c [("host", JString host); ("type", JString method);
                 ("result", j)]
           (events_of (execute wd method host)).
Proof.
  intros host method H1 H2 H3 H4 H5. start_serve.
  apply guard_forbidden in H1. apply String.eqb_neq in H2.
  fold host. rewrite H1, H2.
  rewrite select_gate_granted by exact H3.
  unfold chan_send, defer, bind.
  cbn [update_chan emit concurrencyLimit w trace app].
  fold method. rewrite execute_run, H4.
  unfold json_Marshal_Response, marshal_Response.
  cbn [Result Error Host Type']. rewrite H5.
  destruct c as [cap len]. end_write wd.
Qed.

Lemma authorized_dec (apiKey : string) (r : Request) :
  authorized apiKey r \/ (apiKey <> "" /\ Get (URL_Query r) "key" <> apiKey).
Proof.
  unfold authorized.
  destruct (string_dec apiKey "") as [->|Hk]; [now left; left|].
  destruct (string_dec (Get (URL_Query r) "key") apiKey) as [->|Hu];
    [now left; right | now right].
Qed.

Lemma gate_cases (wd : World) (c : chan) :
  granted wd c \/
  (ctx_Done wd = true /\
   ((chan_cap c <= chan_len c)%nat \/ select_pick_send wd = false)) \/
  ((chan_cap c <= chan_len c)%nat /\ ctx_Done wd = false).
Proof.
  unfold granted.
  destruct (Nat.lt_ge_cases (chan_len c) (chan_cap c)) as [Hlt|Hge];
    destruct (ctx_Done wd); destruct (select_pick_send wd); auto 6.
Qed.

Lemma execute_events_probe (wd : World) (method host : string) :
  existsb is_probe_event (events_of (execute wd method host)) = true.
Proof.
  unfold events_of, execute.
  destruct (method =? "http"); [|destruct (method =? "https")]; unfold bind.
  - rewrite checkHTTP_run, checkHTTP_events. reflexivity.
  - rewrite checkHTTP_run, checkHTTP_events. reflexivity.
  - rewrite checkPing_run. reflexivity.
Qed.

Lemma probe_ran_answered (wd : World) (c : chan) (body : json)
    (evs : list Event) :
  existsb is_probe_event evs = true -> probe_ran (answered wd c body evs) = true.
Proof.
  intros H. unfold probe_ran, answered. cbn [trace existsb is_probe_event].
  rewrite existsb_app, H. reflexivity.
Qed.

Lemma serve_outcome (wd : World) (apiKey : string) (c : chan) (r : Request) :
  outcome wd apiKey c r (serve wd apiKey c r).
Proof.
  destruct (authorized_dec apiKey r) as [Ha|[Hk Hu]].
  2:{ rewrite serve_forbidden by assumption. now constructor. }
  destruct (string_dec (Get (URL_Query r) "host") "") as [Hh|Hh].
  { rewrite serve_bad_request by assumption. now constructor. }
  destruct (gate_cases wd c) as [Hadm|[[Hd Hc]|[Hfull Hd]]].
  - destruct (result_of (execute wd (select_method (Get (URL_Query r) "method"))
                           (Get (URL_Query r) "host"))) as [res [e|]] eqn:Hr.
    + rewrite (serve_granted_error wd apiKey c r res e) by assumption.
      eapply out_probe_failed; eauto.
      apply String.eqb_neq. eapply execute_error_not_empty; eauto.
    + destruct (execute_ok_marshal _ _ _ _ Hr) as (j & Hj & Hn).
      rewrite (serve_granted_ok wd apiKey c r res j) by assumption.
      eapply out_probe_ok; eauto.
  - rewrite serve_abandoned by assumption. now constructor.
  - rewrite serve_busy by assumption. now constructor.
Qed.

Lemma execute_events (wd : World) (method host : string) :
  events_of (execute wd method host) =
  if method =? "http" then events_of (checkHTTP wd host "http")
  else if method =? "https" then events_of (checkHTTP wd host "https")
  else [EvCheckPing host; EvExec (ping_argv host)].
Proof.
  unfold events_of at 1. unfold execute.
  destruct (method =? "http"); [|destruct (method =? "https")]; unfold bind.
  - now rewrite checkHTTP_run.
  - now rewrite checkHTTP_run.
  - now rewrite checkPing_run.
Qed.

Lemma select_method_cases (m : string) :
  (select_method m = "ping" /\ m <> "http" /\ m <> "https") \/
  (select_method m = "http" /\ m = "http") \/
  (select_method m = "https" /\ m = "https").
Proof.
  unfold select_method.
  destruct (string_dec m "http") as [->|H1]; [right; left; now split|].
  destruct (string_dec m "https") as [->|H2]; [right; right; now split|].
  apply neqb_true_iff in H1 as H1', H2 as H2'. rewrite H1', H2'. now left.
Qed.

(** An admitted request: the slot goes back, the status is 200, and the
    probe's events lie between taking and releasing the slot. *)
Lemma serve_granted (wd : World) (apiKey : string) (c : chan) (r : Request) :
  let host := Get (URL_Query r) "host" in
  let method := select_method (Get (URL_Query r) "method") in
  authorized apiKey r -> host <> "" -> granted wd c ->
  exists body,
    serve wd apiKey c r = answered wd c body (events_of (execute wd method host)).
Proof.
  intros host method Ha Hh Hg.
  destruct (result_of (execute wd method host)) as [res [e|]] eqn:Hr.
  - eexists. now apply (serve_granted_error wd apiKey c r res e).
  - destruct (execute_ok_marshal _ _ _ _ Hr) as (j & Hj & _).
    eexists. now apply (serve_granted_ok wd apiKey c r res j).
Qed.

Lemma TrimPrefix_app (pre s : string) : TrimPrefix (pre ++ s) pre = s.
Proof.
  unfold TrimPrefix.
  assert (H : String.prefix pre (pre ++ s) = true).
  { induction pre as [|c pre IH]; simpl.
    - destruct s; reflexivity.
    - destruct (ascii_dec c c); [exact IH | congruence]. }
  rewrite H. apply StrFacts.drop_append.
Qed.

Lemma TrimPrefix_none (pre s : string) :
  String.prefix pre s = false -> TrimPrefix s pre = s.
Proof. unfold TrimPrefix. now intros ->. Qed.

(** ** Where the pattern cannot start *)

Lemma slash_digit_free_tail (c : ascii) (s : string) :
  slash_digit_free (String c s) = true -> slash_digit_free s = true.
Proof.
  cbn [slash_digit_free]. destruct s as [|d s]; [reflexivity|].
  intros H. now apply andb_true_iff in H as [_ H].
Qed.

Lemma match_here_needs_slash_digit (s : string) :
  match_here s <> None ->
  exists d rest, s = String "/" (String d rest) /\ is_digit d = true.
Proof.
  destruct (match_here s) as [m|] eqn:E; [intros _ | congruence].
  apply match_here_inv in E
    as (g1 & g2 & rest & (a & b & Ha & Hb & ->) & _ & -> & _).
  destruct a as [|d a]; [discriminate|].
  exists d, (a ++ "." ++ b ++ "/" ++ g2 ++ "/" ++ rest). split.
  - cbn [append]. now rewrite !StrFacts.append_assoc.
  - simpl in Ha. now apply andb_true_iff in Ha as [Ha _].
Qed.

(** The pattern does not start inside a text where no slash is followed by
    a digit, when a slash comes next. *)
Lemma slash_digit_free_no_match (t rest : string) (j : nat) :
  slash_digit_free t = true -> (j < String.length t)%nat ->
  match_here (Str.drop j (t ++ String "/" rest)) = None.
Proof.
  revert j. induction t as [|c t IH]; intros j Hf Hj; [simpl in Hj; lia|].
  destruct j as [|j].
  - cbn [Str.drop].
    destruct (match_here (String c t ++ String "/" rest)) eqn:E;
      [|reflexivity].
    exfalso.
    destruct (match_here_needs_slash_digit (String c t ++ String "/" rest))
      as (d & r' & Hs & Hd); [congruence|].
    cbn [append] in Hs. injection Hs as Hc Ht. subst c.
    destruct t as [|d' t].
    + cbn [append] in Ht. injection Ht as Hd' _. subst d. discriminate.
    + cbn [append] in Ht. injection Ht as Hd' _. subst d'.
      cbn [slash_digit_free] in Hf. rewrite Hd in Hf. discriminate.
  - cbn [append Str.drop]. apply IH.
    + exact (slash_digit_free_tail _ _ Hf).
    + simpl in Hj. lia.
Qed.

Lemma no_slash_digits (a : string) : all_digits a = true -> no_slash a = true.
Proof.
  induction a as [|c a IH]; [reflexivity|]. cbn [all_digits no_slash].
  intros H. apply andb_true_iff in H as [Hc Ha]. rewrite (IH Ha), andb_true_r.
  destruct c as [[] [] [] [] [] [] [] []]; cbv in Hc |- *; congruence.
Qed.

Lemma no_slash_app (a b : string) :
  no_slash (a ++ b) = no_slash a && no_slash b.
Proof.
  induction a as [|c a IH]; [reflexivity|]. cbn [append no_slash].
  now rewrite IH, andb_assoc.
Qed.

Lemma no_slash_decimal (g : string) : is_decimal g -> no_slash g = true.
Proof.
  intros (a & b & Ha & Hb & ->). rewrite !no_slash_app.
  rewrite (no_slash_digits a (digits1_all a Ha)).
  now rewrite (no_slash_digits b (digits1_all b Hb)).
Qed.

Lemma no_slash_free (s : string) :
  no_slash s = true -> slash_digit_free s = true.
Proof.
  induction s as [|c s IH]; [reflexivity|]. cbn [no_slash slash_digit_free].
  intros H. apply andb_true_iff in H as [Hc Hs].
  destruct s as [|d s']; [reflexivity|]. rewrite (IH Hs), andb_true_r.
  apply negb_true_iff in Hc. now rewrite Hc.
Qed.

(** Before the second number of the summary line of iputils no slash is
    followed by a digit. *)
Lemma iputils_head_free (mn : string) :
  is_decimal mn ->
  slash_digit_free ("rtt min/avg/max/mdev = " ++ mn) = true.
Proof.
  intros D. cbn.
  change (slash_digit_free (String " " mn) = true).
  apply no_slash_free. cbn [no_slash]. now apply no_slash_decimal.
Qed.

(** * The claims *)

(** ** C1: the response body *)

(** C1, as stated, fails: a request with a wrong key is answered 403 with a
    body whose only member is [error]; it has no [host], no [type] and no
    [result]. *)
Lemma rejection_body_lacks_envelope :
  let wd := example_world iputils_summary (Exited 0) (inl 200%Z) false true in
  let r := {| URL_Query := [("key", "wrong"); ("host", "example.com")] |} in
  let s := serve wd "secret" (make_chan 20) r in
  rw_status (w s) = Some 403%Z /\
  rw_body (w s) = [[("error", JString "Auth failed")]] /\
  forall body, In body (rw_body (w s)) ->
    member "host" body = None /\ member "type" body = None /\
    member "result" body = None.
Proof.
  cbv zeta. split; [reflexivity|]. split; [reflexivity|].
  intros body [<-|[]]. repeat split.
Qed.

(** C1 (amended): every body the handler writes is of one of two shapes.
    The body of a terminal rejection (403, 400, 503) is the object
    sendError builds, with the single member [error], and no probe ran. The
    body of a completed probe is the envelope: status 200, [host], [type] and
    a numeric [result]; when the probe failed [result] is the integer 0 and
    [error] is the failure's message, when it succeeded there is no [error]
    member. At most one body is written. *)
Theorem response_body_shapes
    (wd : World) (apiKey : string) (c : chan) (r : Request) (body : json) :
  let host := Get (URL_Query r) "host" in
  let method := select_method (Get (URL_Query r) "method") in
  let s := serve wd apiKey c r in
  In body (rw_body (w s)) ->
  rw_body (w s) = [body] /\
  (((exists msg, body = [("error", JString msg)]) /\
    (rw_status (w s) = Some 403%Z \/ rw_status (w s) = Some 400%Z \/
     rw_status (w s) = Some 503%Z) /\
    probe_ran s = false)
   \/
   (probe_ran s = true /\ rw_status (w s) = Some 200%Z /\
    member "host" body = Some (JString host) /\
    member "type" body = Some (JString method) /\
    (exists v, member "result" body = Some v /\ is_number v = true) /\
    match snd (result_of (execute wd method host)) with
    | Some e => member "result" body = Some (JInt 0) /\
                member "error" body = Some (JString (error_Error e))
    | None => member "error" body = None
    end)).
Proof.
  intros host method s. subst s.
  destruct (serve_outcome wd apiKey c r) as
    [Hk Hu|Ha Hh|Ha Hh Hfull Hd|Ha Hh Hd Hc|res e h m Ha Hh Hg Hr He
    |res j h m Ha Hh Hg Hr Hj Hn];
    cbn [rejected answered abandoned w rw_body rw_status In];
    intros Hin; try (destruct Hin as [<-|[]]); try contradiction.
  - split; [reflexivity|]. left. split; [now eexists|]. split; auto.
  - split; [reflexivity|]. left. split; [now eexists|]. split; auto.
  - split; [reflexivity|]. left. split; [now eexists|]. split; auto.
  - split; [reflexivity|]. right.
    split; [apply probe_ran_answered, execute_events_probe|].
    subst host method h m. rewrite Hr. cbn [snd]. repeat split.
    now exists (JInt 0).
  - split; [reflexivity|]. right.
    split; [apply probe_ran_answered, execute_events_probe|].
    subst host method h m. rewrite Hr. cbn [snd]. repeat split.
    now exists j.
Qed.

Lemma response_body_shapes_witness :
  let wd := example_world iputils_summary (Exited 0) (inl 204%Z) false true in
  let r := {| URL_Query := [("host", "example.com"); ("method", "https")] |} in
  let body := [("host", JString "example.com"); ("type", JString "https");
               ("result", JInt 204)] in
  In body (rw_body (w (serve wd "" (make_chan 20) r))) /\
  rw_body (w (serve wd "" (make_chan 20) r)) = [body].
Proof.
  cbv zeta.
  assert (H : In [("host", JString "example.com"); ("type", JString "https");
                  ("result", JInt 204)]
                (rw_body (w (serve
                   (example_world iputils_summary (Exited 0) (inl 204%Z)
                                  false true)
                   "" (make_chan 20)
                   {| URL_Query := [("host", "example.com");
                                    ("method", "https")] |})))).
  { left. reflexivity. }
  split; [exact H|].
  exact (proj1 (response_body_shapes _ _ _ _ _ H)).
Defined.


(** ** C2: the average of the triad *)

(** C2 (code bug): the code does not return the average. On the summary
    line of iputils ping, the utility the image installs,
    [rtt min/avg/max/mdev = <min>/<avg>/<max>/<mdev> ms], the first number
    comes after a space, so the pattern [/<decimal>/<decimal>/] first matches
    at the slash after the minimum: its groups are the average and the
    maximum, and checkPing returns the second group. For every such line
    whose maximum is a positive float64, checkPing returns the maximum; it is
    the average only when the two are the same float64. *)
Theorem checkPing_returns_max_on_iputils
    (wd : World) (host mn avg mx mdev : string) (val : float64) :
  os_exec wd (ping_argv host) = (iputils_line mn avg mx mdev, Exited 0) ->
  is_decimal mn -> is_decimal avg -> is_decimal mx ->
  ParseFloat mx = (val, None) ->
  f64_lt f64_zero val = true ->
  FindStringSubmatch (iputils_line mn avg mx mdev)
  = ["/" ++ avg ++ "/" ++ mx ++ "/"; avg; mx] /\
  result_of (checkPing wd host) = (val, None) /\
  (fst (ParseFloat avg) <> val ->
   fst (result_of (checkPing wd host)) <> fst (ParseFloat avg)).
Proof.
  intros He Dmn Davg Dmx Hp Hpos.
  assert (Hm : FindStringSubmatch (iputils_line mn avg mx mdev)
               = ["/" ++ avg ++ "/" ++ mx ++ "/"; avg; mx]).
  { unfold iputils_line. rewrite <- StrFacts.append_assoc.
    apply (FindStringSubmatch_first
             (String.length ("rtt min/avg/max/mdev = " ++ mn))).
    - intros j Hj. apply slash_digit_free_no_match; [|exact Hj].
      now apply iputils_head_free.
    - rewrite StrFacts.drop_append. now apply match_here_intro. }
  assert (Hr : result_of (checkPing wd host) = (val, None)).
  { rewrite (checkPing_match wd host _ _ _ _ He Hm), Hp.
    now rewrite (f64_lt_zero_not_le _ Hpos). }
  split; [exact Hm|]. split; [exact Hr|].
  rewrite Hr. cbn [fst]. congruence.
Qed.

Lemma checkPing_returns_max_on_iputils_witness :
  let wd := example_world iputils_summary (Exited 0) (inl 200%Z) false true in
  iputils_summary = iputils_line "0.031" "0.045" "0.060" "0.012" /\
  os_exec wd (ping_argv "example.com") = (iputils_summary, Exited 0) /\
  FindStringSubmatch iputils_summary = ["/0.045/0.060/"; "0.045"; "0.060"] /\
  result_of (checkPing wd "example.com") = (fst (ParseFloat "0.060"), None) /\
  fst (result_of (checkPing wd "example.com")) <> fst (ParseFloat "0.045").
Proof.
  cbv zeta.
  pose proof (checkPing_returns_max_on_iputils
    (example_world iputils_summary (Exited 0) (inl 200%Z) false true)
    "example.com" "0.031" "0.045" "0.060" "0.012" (fst (ParseFloat "0.060"))
    eq_refl
    (ex_intro _ "0" (ex_intro _ "031" (conj eq_refl (conj eq_refl eq_refl))))
    (ex_intro _ "0" (ex_intro _ "045" (conj eq_refl (conj eq_refl eq_refl))))
    (ex_intro _ "0" (ex_intro _ "060" (conj eq_refl (conj eq_refl eq_refl))))
    eq_refl eq_refl) as (H1 & H2 & H3).
  split; [reflexivity|]. split; [reflexivity|].
  split; [exact H1|]. split; [exact H2|].
  apply H3. discriminate.
Defined.

(** ** C3: a context cancelled at the gate *)

(** C3, as stated, fails: the context is cancelled when the gate is
    consulted and a slot is free, so both communications of the select are
    ready; when the runtime picks the send, the request takes the slot, the
    probe runs and a response is written. *)
Lemma cancelled_request_takes_slot :
  let wd := example_world "" Signaled (inl 200%Z) true true in
  let r := {| URL_Query := [("host", "example.com")] |} in
  let s := serve wd "" (make_chan 20) r in
  ctx_Done wd = true /\ authorized "" r /\
  slot_taken s = true /\ probe_ran s = true /\ silent s = false /\
  rw_status (w s) = Some 200%Z.
Proof.
  cbv zeta. split; [reflexivity|]. split; [now left|]. repeat split.
Qed.

(** C3 (amended): a request that passed authorization and validation and
    whose context is already cancelled when the gate is consulted is
    abandoned (no slot is taken, no probe runs, no body and no status are
    emitted, the semaphore is as before) whenever no slot is free, or a slot
    is free and the choice of the select between its two ready cases falls
    on the cancellation. *)
Theorem cancelled_at_gate
    (wd : World) (apiKey : string) (c : chan) (r : Request) :
  let s := serve wd apiKey c r in
  authorized apiKey r -> Get (URL_Query r) "host" <> "" ->
  ctx_Done wd = true ->
  (chan_cap c <= chan_len c)%nat \/ select_pick_send wd = false ->
  silent s = true /\ slot_taken s = false /\ probe_ran s = false /\
  rw_status (w s) = None /\ rw_body (w s) = [] /\
  concurrencyLimit s = c.
Proof.
  intros s Ha Hh Hd Hc. subst s.
  rewrite (serve_abandoned wd apiKey c r Ha Hh Hd Hc). repeat split.
Qed.

Lemma cancelled_at_gate_witness :
  let wd := example_world iputils_summary (Exited 0) (inl 200%Z) true false in
  let r := {| URL_Query := [("host", "example.com")] |} in
  silent (serve wd "" (make_chan 20) r) = true /\
  slot_taken (serve wd "" (make_chan 20) r) = false.
Proof.
  cbv zeta.
  pose proof (cancelled_at_gate
                (example_world iputils_summary (Exited 0) (inl 200%Z) true false)
                "" (make_chan 20)
                {| URL_Query := [("host", "example.com")] |}
                (or_introl eq_refl)
                ltac:(discriminate) eq_refl (or_intror eq_refl)) as H.
  exact (conj (proj1 H) (proj1 (proj2 H))).
Defined.

(** ** C4: authorization *)

(** C4: with a non-empty credential configured, a request whose [key]
    differs from it gets 403, no probe runs and the gate is not consulted;
    with no credential configured no request gets 403, and what the handler
    does is the same whatever [key] is supplied. *)
Theorem credential_check
    (wd : World) (apiKey : string) (c : chan) (r : Request) :
  (apiKey <> "" -> Get (URL_Query r) "key" <> apiKey ->
   let s := serve wd apiKey c r in
   rw_status (w s) = Some 403%Z /\ probe_ran s = false /\
   gate_consulted s = false /\ slot_taken s = false /\
   concurrencyLimit s = c) /\
  (apiKey = "" ->
   rw_status (w (serve wd apiKey c r)) <> Some 403%Z /\
   forall r',
     Get (URL_Query r') "host" = Get (URL_Query r) "host" ->
     Get (URL_Query r') "method" = Get (URL_Query r) "method" ->
     serve wd apiKey c r' = serve wd apiKey c r).
Proof.
  split.
  - intros Hk Hu s. subst s. rewrite (serve_forbidden wd apiKey c r Hk Hu).
    repeat split.
  - intros ->. split.
    + destruct (serve_outcome wd "" c r); cbn; congruence.
    + intros r' Hh Hm. unfold serve, handleRequest, bind.
      cbn [neqb String.eqb negb andb]. now rewrite Hh, Hm.
Qed.

Lemma credential_check_witness :
  let wd := example_world iputils_summary (Exited 0) (inl 200%Z) false true in
  let r := {| URL_Query := [("key", "wrong"); ("host", "example.com")] |} in
  (rw_status (w (serve wd "secret" (make_chan 20) r)) = Some 403%Z /\
   probe_ran (serve wd "secret" (make_chan 20) r) = false) /\
  rw_status (w (serve wd "" (make_chan 20) r)) <> Some 403%Z.
Proof.
  cbv zeta. split.
  - pose proof (proj1 (credential_check
        (example_world iputils_summary (Exited 0) (inl 200%Z) false true)
        "secret" (make_chan 20)
        {| URL_Query := [("key", "wrong"); ("host", "example.com")] |})
        ltac:(discriminate) ltac:(discriminate)) as H.
    exact (conj (proj1 H) (proj1 (proj2 H))).
  - exact (proj1 (proj2 (credential_check
        (example_world iputils_summary (Exited 0) (inl 200%Z) false true)
        "" (make_chan 20)
        {| URL_Query := [("key", "wrong"); ("host", "example.com")] |})
        eq_refl)).
Defined.

(** ** C5: validation *)

(** C5: an authorized request whose [host] is empty gets 400 whatever its
    [method]; the gate is not consulted and no probe runs. *)
Theorem empty_host_rejected
    (wd : World) (apiKey : string) (c : chan) (r : Request) :
  let s := serve wd apiKey c r in
  authorized apiKey r -> Get (URL_Query r) "host" = "" ->
  rw_status (w s) = Some 400%Z /\ gate_consulted s = false /\
  slot_taken s = false /\ probe_ran s = false /\ concurrencyLimit s = c.
Proof.
  intros s Ha Hh. subst s. rewrite (serve_bad_request wd apiKey c r Ha Hh).
  repeat split.
Qed.

Lemma empty_host_rejected_witness :
  let wd := example_world iputils_summary (Exited 0) (inl 200%Z) false true in
  let r := {| URL_Query := [("key", "secret"); ("method", "https")] |} in
  rw_status (w (serve wd "secret" (make_chan 20) r)) = Some 400%Z.
Proof.
  cbv zeta.
  exact (proj1 (empty_host_rejected
    (example_world iputils_summary (Exited 0) (inl 200%Z) false true)
    "secret" (make_chan 20)
    {| URL_Query := [("key", "secret"); ("method", "https")] |}
    (or_intror eq_refl) eq_refl)).
Defined.

(** ** C6: overload *)

(** C6: an authorized, validated request that finds every slot occupied,
    its context not cancelled, gets 503 at once: the select falls to its
    default case, no probe runs, no slot is taken or held, and the handler
    returns. *)
Theorem full_gate_rejects
    (wd : World) (apiKey : string) (c : chan) (r : Request) :
  let s := serve wd apiKey c r in
  authorized apiKey r -> Get (URL_Query r) "host" <> "" ->
  (chan_cap c <= chan_len c)%nat -> ctx_Done wd = false ->
  rw_status (w s) = Some 503%Z /\ probe_ran s = false /\
  slot_taken s = false /\ concurrencyLimit s = c /\
  trace s = [EvSelectDefault].
Proof.
  intros s Ha Hh Hfull Hd. subst s.
  rewrite (serve_busy wd apiKey c r Ha Hh Hfull Hd). repeat split.
Qed.

Lemma full_gate_rejects_witness :
  let wd := example_world iputils_summary (Exited 0) (inl 200%Z) false true in
  let r := {| URL_Query := [("host", "example.com")] |} in
  let c := {| chan_cap := 20; chan_len := 20 |} in
  rw_status (w (serve wd "" c r)) = Some 503%Z /\
  concurrencyLimit (serve wd "" c r) = c.
Proof.
  cbv zeta.
  pose proof (full_gate_rejects
    (example_world iputils_summary (Exited 0) (inl 200%Z) false true)
    "" {| chan_cap := 20; chan_len := 20 |}
    {| URL_Query := [("host", "example.com")] |}
    (or_introl eq_refl) ltac:(discriminate) (le_n 20) eq_refl) as H.
  exact (conj (proj1 H) (proj1 (proj2 (proj2 (proj2 H))))).
Defined.

(** ** C7: a failed probe *)

(** C7: when a request is admitted and its probe executor returns an error,
    the status is 200 and the body is the envelope with [result] the integer
    0 and [error] the message of the failure. *)
Theorem probe_failure_is_200
    (wd : World) (apiKey : string) (c : chan) (r : Request)
    (res : any) (e : error) :
  let host := Get (URL_Query r) "host" in
  let method := select_method (Get (URL_Query r) "method") in
  let s := serve wd apiKey c r in
  authorized apiKey r -> host <> "" -> granted wd c ->
  result_of (execute wd method host) = (res, Some e) ->
  rw_status (w s) = Some 200%Z /\
  rw_body (w s) = [[("host", JString host); ("type", JString method);
                    ("result", JInt 0);
                    ("error", JString (error_Error e))]] /\
  concurrencyLimit s = c.
Proof.
  intros host method s Ha Hh Hg Hr. subst s.
  rewrite (serve_granted_error wd apiKey c r res e Ha Hh Hg Hr).
  repeat split.
Qed.

Lemma probe_failure_is_200_witness :
  let wd := example_world "" (Exited 1) (inl 200%Z) false true in
  let r := {| URL_Query := [("host", "192.0.2.1")] |} in
  rw_status (w (serve wd "" (make_chan 20) r)) = Some 200%Z /\
  rw_body (w (serve wd "" (make_chan 20) r))
  = [[("host", JString "192.0.2.1"); ("type", JString "ping");
      ("result", JInt 0);
      ("error", JString "ping failed: host unreachable or timeout")]].
Proof.
  cbv zeta.
  pose proof (probe_failure_is_200
    (example_world "" (Exited 1) (inl 200%Z) false true)
    "" (make_chan 20) {| URL_Query := [("host", "192.0.2.1")] |}
    (any_float64 f64_zero)
    (errors_New "ping failed: host unreachable or timeout")
    (or_introl eq_refl) ltac:(discriminate)
    (conj (Nat.lt_0_succ 19) (or_introl eq_refl)) eq_refl) as H.
  exact (conj (proj1 H) (proj1 (proj2 H))).
Defined.

(** ** C8: what checkPing returns *)




(** ** C9: checkHTTP *)

(** C9, as stated, fails: not every host gets a HEAD request, and more than
    one prefix can go. The host [a b] makes the URL [http://a b], which
    url.Parse refuses: [http.NewRequestWithContext] returns the error,
    checkHTTP returns it with 0 and [client.Do] is never called. The host
    [http://https://example.com] loses both prefixes, one after the other,
    while [https://http://example.com] loses the first only. *)
Lemma checkHTTP_malformed_url_sends_nothing :
  let bad := {| Op := "parse"; URL := "http://a b";
                Cause := "invalid character " ++ Str.dquote ++ " "
                         ++ Str.dquote ++ " in host name" |} in
  let wd := refusing_world bad in
  (http_url "a b" "http" = "http://a b" /\
   url_Parse wd "http://a b" = Some bad /\
   events_of (checkHTTP wd "a b" "http")
   = [EvCheckHTTP "a b" "http"; EvNewRequest "HEAD" "http://a b"] /\
   (forall method url,
      ~ In (EvDo method url) (events_of (checkHTTP wd "a b" "http"))) /\
   result_of (checkHTTP wd "a b" "http")
   = (0%Z, Some (errors_New
                   ("parse " ++ Str.dquote ++ "http://a b" ++ Str.dquote
                    ++ ": invalid character " ++ Str.dquote ++ " "
                    ++ Str.dquote ++ " in host name")))) /\
  http_url "http://https://example.com" "http" = "http://example.com" /\
  http_url "https://http://example.com" "http" = "http://http://example.com".
Proof.
  cbv zeta. split; [|split; reflexivity].
  split; [reflexivity|]. split; [reflexivity|]. split; [reflexivity|].
  split; [|reflexivity].
  intros method url [H|[H|[]]]; discriminate H.
Qed.

(** C9 (amended): checkHTTP removes a leading [http://] from the host and
    then a leading [https://] from what is left, and builds a HEAD request
    for [scheme://host]. When the URL is malformed nothing is sent and the
    result is 0 with the error of url.Parse. When it is well formed the
    request is sent, once; a response's status code is the result, as it is
    and without an error, and a transport error is returned with 0. *)
Theorem checkHTTP_head_request (wd : World) (host scheme : string) :
  (forall h, host = "http://" ++ h -> String.prefix "https://" h = false ->
             http_url host scheme = scheme ++ "://" ++ h) /\
  (forall h, host = "http://" ++ "https://" ++ h ->
             http_url host scheme = scheme ++ "://" ++ h) /\
  (forall h, host = "https://" ++ h ->
             http_url host scheme = scheme ++ "://" ++ h) /\
  (String.prefix "http://" host = false ->
   String.prefix "https://" host = false ->
   http_url host scheme = scheme ++ "://" ++ host) /\
  (exists rest,
     events_of (checkHTTP wd host scheme)
     = EvCheckHTTP host scheme
       :: EvNewRequest "HEAD" (http_url host scheme) :: rest) /\
  (url_Parse wd (http_url host scheme) = None ->
   events_of (checkHTTP wd host scheme)
   = [EvCheckHTTP host scheme; EvNewRequest "HEAD" (http_url host scheme);
      EvDo "HEAD" (http_url host scheme)]) /\
  (forall code,
     url_Parse wd (http_url host scheme) = None ->
     client_Do wd "HEAD" (http_url host scheme) = inl code ->
     result_of (checkHTTP wd host scheme) = (code, None)) /\
  (forall e,
     url_Parse wd (http_url host scheme) = Some e ->
     events_of (checkHTTP wd host scheme)
     = [EvCheckHTTP host scheme; EvNewRequest "HEAD" (http_url host scheme)]
     /\
     result_of (checkHTTP wd host scheme)
     = (0%Z, Some (errors_New (url_Error_Error wd e)))) /\
  (forall e,
     url_Parse wd (http_url host scheme) = None ->
     client_Do wd "HEAD" (http_url host scheme) = inr e ->
     result_of (checkHTTP wd host scheme)
     = (0%Z, Some (errors_New (url_Error_Error wd e)))).
Proof.
  repeat split.
  - intros h -> Hh. unfold http_url.
    now rewrite TrimPrefix_app, (TrimPrefix_none _ _ Hh).
  - intros h ->. unfold http_url. now rewrite !TrimPrefix_app.
  - intros h ->. unfold http_url.
    rewrite (TrimPrefix_none "http://" ("https://" ++ h) eq_refl).
    now rewrite TrimPrefix_app.
  - intros H1 H2. unfold http_url.
    now rewrite (TrimPrefix_none _ _ H1), (TrimPrefix_none _ _ H2).
  - rewrite checkHTTP_events. eexists. reflexivity.
  - intros Hp. rewrite checkHTTP_events, Hp. reflexivity.
  - intros code Hp Hd. now rewrite checkHTTP_result, Hp, Hd.
  - rewrite checkHTTP_events, H. reflexivity.
  - now rewrite checkHTTP_result, H.
  - intros e Hp Hd. now rewrite checkHTTP_result, Hp, Hd.
Qed.

Lemma checkHTTP_head_request_witness :
  let wd := example_world "" (Exited 1) (inl 404%Z) false true in
  http_url "http://example.com" "https" = "https://example.com" /\
  events_of (checkHTTP wd "http://example.com" "https")
  = [EvCheckHTTP "http://example.com" "https";
     EvNewRequest "HEAD" "https://example.com";
     EvDo "HEAD" "https://example.com"] /\
  result_of (checkHTTP wd "http://example.com" "https") = (404%Z, None).
Proof.
  cbv zeta.
  pose proof (checkHTTP_head_request
    (example_world "" (Exited 1) (inl 404%Z) false true)
    "http://example.com" "https") as (H1 & _ & _ & _ & _ & H6 & H7 & _).
  split; [|split].
  - exact (H1 "example.com" eq_refl eq_refl).
  - exact (H6 eq_refl).
  - exact (H7 404%Z eq_refl eq_refl).
Defined.

(** ** C10: the host is not sanitised *)

(** C10: a non-empty [host] passes validation whatever bytes it holds (the
    request is not answered 400 and reaches the gate), and an admitted
    request hands it unchanged to the selected probe; for ping it is the
    last element of the argument vector of the external utility. *)
Theorem host_passed_verbatim
    (wd : World) (apiKey : string) (c : chan) (r : Request) :
  let host := Get (URL_Query r) "host" in
  let method := select_method (Get (URL_Query r) "method") in
  let s := serve wd apiKey c r in
  authorized apiKey r -> host <> "" ->
  rw_status (w s) <> Some 400%Z /\ gate_consulted s = true /\
  (granted wd c ->
   (method = "ping" /\
    In (EvCheckPing host) (trace s) /\
    In (EvExec ["ping"; "-c"; "3"; "-W"; "2"; "-q"; host]) (trace s)) \/
   ((method = "http" \/ method = "https") /\
    In (EvCheckHTTP host method) (trace s))).
Proof.
  intros host method s Ha Hh. subst s.
  destruct (gate_cases wd c) as [Hg|[[Hd Hc]|[Hfull Hd]]].
  - destruct (serve_granted wd apiKey c r Ha Hh Hg) as (body & ->).
    fold host method.
    split; [discriminate|]. split; [reflexivity|]. intros _.
    cbn [answered trace]. rewrite execute_events.
    destruct (select_method_cases (Get (URL_Query r) "method"))
      as [(Hm & _)|[(Hm & _)|(Hm & _)]]; fold method in Hm; rewrite Hm.
    + left. split; [reflexivity|]. cbn. auto.
    + right. split; [now left|]. cbn [String.eqb Ascii.eqb Bool.eqb].
      rewrite checkHTTP_events. cbn. auto.
    + right. split; [now right|]. cbn [String.eqb Ascii.eqb Bool.eqb].
      rewrite checkHTTP_events. cbn. auto.
  - rewrite (serve_abandoned wd apiKey c r Ha Hh Hd Hc).
    split; [discriminate|]. split; [reflexivity|].
    intros [Hlt Hp]. exfalso.
    destruct Hc as [Hc|Hc]; [lia|]. destruct Hp; congruence.
  - rewrite (serve_busy wd apiKey c r Ha Hh Hfull Hd).
    split; [discriminate|]. split; [reflexivity|].
    intros [Hlt _]. lia.
Qed.

Lemma host_passed_verbatim_witness :
  let wd := example_world iputils_summary (Exited 0) (inl 200%Z) false true in
  let r := {| URL_Query := [("host", " ; id | x ")] |} in
  rw_status (w (serve wd "" (make_chan 20) r)) <> Some 400%Z /\
  gate_consulted (serve wd "" (make_chan 20) r) = true /\
  In (EvExec ["ping"; "-c"; "3"; "-W"; "2"; "-q"; " ; id | x "])
     (trace (serve wd "" (make_chan 20) r)).
Proof.
  cbv zeta.
  pose proof (host_passed_verbatim
    (example_world iputils_summary (Exited 0) (inl 200%Z) false true)
    "" (make_chan 20) {| URL_Query := [("host", " ; id | x ")] |}
    (or_introl eq_refl) ltac:(discriminate)) as (H1 & H2 & H3).
  split; [exact H1|]. split; [exact H2|].
  destruct (H3 (conj (Nat.lt_0_succ 19) (or_introl eq_refl)))
    as [(_ & _ & H)|([H|H] & _)]; [exact H | discriminate H..].
Defined.

(** * Further properties of the code *)

(** ** main *)

Lemma digit_val_range (c : ascii) :
  is_digit c = true -> (0 <= digit_val c <= 9)%Z.
Proof.
  destruct c as [[] [] [] [] [] [] [] []]; cbv; intros H;
    try discriminate; split; discriminate.
Qed.

Lemma digits_val_nonneg (s : string) (acc : Z) :
  all_digits s = true -> (0 <= acc)%Z -> (0 <= digits_val acc s)%Z.
Proof.
  revert acc. induction s as [|c s IH]; cbn [digits_val all_digits];
    intros acc H Hacc; [exact Hacc|].
  apply andb_true_iff in H as [Hc Hs].
  apply IH; [exact Hs|]. pose proof (digit_val_range c Hc). lia.
Qed.

Lemma is_digit_not_sign (c : ascii) :
  is_digit c = true -> (c =? "-")%char = false /\ (c =? "+")%char = false.
Proof.
  destruct c as [[] [] [] [] [] [] [] []]; cbv; intros H;
    try discriminate; split; reflexivity.
Qed.

(** When [Atoi] reports no error the text is an optional sign and digits,
    and the value is the number written, within the range of [int]. *)
Lemma Atoi_ok (s : string) (n : Z) :
  Atoi s = (n, None) ->
  (- (maxInt64 + 1) <= n <= maxInt64)%Z /\
  ((0 < n)%Z -> valid_limit s n).
Proof.
  destruct s as [|c rest]; [discriminate|]. unfold Atoi.
  destruct (c =? "-")%char eqn:Hm.
  - cbn [orb]. destruct (digits1 rest) eqn:Hd; [|discriminate].
    pose proof (digits_val_nonneg rest 0 (digits1_all _ Hd) (Z.le_refl 0)).
    destruct (digits_val 0 rest <=? maxInt64 + 1)%Z eqn:Hle; [|discriminate].
    intros H0; injection H0 as <-. apply Z.leb_le in Hle.
    split; [unfold maxInt64 in *; lia | lia].
  - cbn [orb]. destruct (c =? "+")%char eqn:Hp.
    + destruct (digits1 rest) eqn:Hd; [|discriminate].
      pose proof (digits_val_nonneg rest 0 (digits1_all _ Hd) (Z.le_refl 0)).
      destruct (digits_val 0 rest <=? maxInt64)%Z eqn:Hle; [|discriminate].
      intros H0; injection H0 as <-. apply Z.leb_le in Hle.
      split; [unfold maxInt64 in *; lia|]. intros Hpos.
      exists rest. apply Ascii.eqb_eq in Hp. subst c.
      repeat split; auto; lia.
    + destruct (digits1 (String c rest)) eqn:Hd; [|discriminate].
      pose proof (digits_val_nonneg _ 0 (digits1_all _ Hd) (Z.le_refl 0)).
      destruct (digits_val 0 (String c rest) <=? maxInt64)%Z eqn:Hle;
        [|discriminate].
      intros H0; injection H0 as <-. apply Z.leb_le in Hle.
      change (digits_val (digit_val c) rest)
        with (digits_val 0 (String c rest)).
      split; [unfold maxInt64 in *; lia|]. intros Hpos.
      exists (String c rest). repeat split; auto; lia.
Qed.

Lemma Atoi_valid (s : string) (n : Z) :
  valid_limit s n -> Atoi s = (n, None).
Proof.
  intros (ds & Hs & Hd & -> & Hpos & Hmax).
  destruct ds as [|d ds]; [discriminate|].
  assert (Hdig : is_digit d = true).
  { simpl in Hd. now apply andb_true_iff in Hd as [Hd _]. }
  destruct (is_digit_not_sign d Hdig) as [Hm Hp].
  apply Z.leb_le in Hmax.
  destruct Hs as [-> | ->].
  - unfold Atoi. rewrite Hm, Hp. cbn [orb]. now rewrite Hd, Hmax.
  - cbn [append]. unfold Atoi. cbn [Ascii.eqb Bool.eqb orb].
    now rewrite Hd, Hmax.
Qed.

(** X1: whatever the environment holds, the semaphore [main] creates is
    empty and its capacity is at least 1 and fits an [int]. *)
Theorem main_capacity_bounds (Getenv : string -> string) :
  let c := st_concurrencyLimit (main Getenv) in
  (1 <= chan_cap c)%nat /\ (Z.of_nat (chan_cap c) <= maxInt64)%Z /\
  chan_len c = 0%nat.
Proof.
  unfold main. destruct (neqb (Getenv "CONCURRENCY_LIMIT") "").
  - destruct (Atoi (Getenv "CONCURRENCY_LIMIT")) as [n [e|]] eqn:Ha.
    + cbv; repeat split; try lia; discriminate.
    + destruct (0 <? n)%Z eqn:Hpos.
      * apply Z.ltb_lt in Hpos. destruct (Atoi_ok _ _ Ha) as [[_ Hmax] _].
        cbn [st_concurrencyLimit make_chan chan_cap chan_len].
        repeat split; lia.
      * cbv; repeat split; try lia; discriminate.
  - cbv; repeat split; try lia; discriminate.
Qed.

(** X2: a CONCURRENCY_LIMIT that writes a positive [int] (digits, at most
    one plus sign before them, value from 1 to 2^63 - 1) becomes the
    capacity, and [main] logs no warning about it. *)
Theorem main_takes_valid_limit
    (Getenv : string -> string) (n : Z) :
  valid_limit (Getenv "CONCURRENCY_LIMIT") n ->
  st_concurrencyLimit (main Getenv) = make_chan (Z.to_nat n) /\
  ~ In (invalid_limit_warning (Getenv "CONCURRENCY_LIMIT"))
       (st_log (main Getenv)) /\
  In ("Concurrency limit set to " ++ Itoa n) (st_log (main Getenv)).
Proof.
  intros Hv. pose proof (Atoi_valid _ _ Hv) as Ha.
  destruct Hv as (ds & Hs & Hd & Hn & Hpos & Hmax).
  assert (Hne : neqb (Getenv "CONCURRENCY_LIMIT") "" = true).
  { apply neqb_true_iff. destruct ds; [discriminate|].
    destruct Hs as [-> | ->]; discriminate. }
  apply Z.ltb_lt in Hpos.
  unfold main. rewrite Hne, Ha, Hpos.
  cbn [st_concurrencyLimit st_log]. split; [reflexivity|]. split.
  - unfold invalid_limit_warning. intros Hin.
    apply in_app_or in Hin. destruct Hin as [Hin|Hin].
    + destruct (Getenv "API_KEY" =? ""); [|contradiction].
      destruct Hin as [Hin|[]]. discriminate.
    + cbn in Hin. destruct Hin as [Hin|[Hin|[]]]; discriminate.
  - apply in_or_app. right. now left.
Qed.


Lemma main_takes_valid_limit_witness :
  st_concurrencyLimit (main (env "secret" "+50")) = make_chan 50.
Proof.
  refine (proj1 (main_takes_valid_limit (env "secret" "+50") 50 _)).
  exists "50". split; [right; reflexivity|].
  repeat split; try reflexivity. discriminate.
Defined.

(** X3: in every other case the capacity is the default, 20: silently when
    CONCURRENCY_LIMIT is unset or empty, and with a warning that quotes the
    value when it is set to a text that does not write a positive [int]
    (not a number, zero, negative, or beyond 2^63 - 1). *)
Theorem main_falls_back_to_default (Getenv : string -> string) :
  (forall n, ~ valid_limit (Getenv "CONCURRENCY_LIMIT") n) ->
  st_concurrencyLimit (main Getenv) = make_chan 20 /\
  (In (invalid_limit_warning (Getenv "CONCURRENCY_LIMIT"))
      (st_log (main Getenv))
   <-> Getenv "CONCURRENCY_LIMIT" <> "").
Proof.
  intros Hinv. unfold main.
  destruct (neqb (Getenv "CONCURRENCY_LIMIT") "") eqn:Hne.
  - apply neqb_true_iff in Hne.
    assert (Hwarn : forall l1 l3,
      In (invalid_limit_warning (Getenv "CONCURRENCY_LIMIT"))
         (l1 ++ [invalid_limit_warning (Getenv "CONCURRENCY_LIMIT")] ++ l3)).
    { intros l1 l3. apply in_or_app. right. now left. }
    destruct (Atoi (Getenv "CONCURRENCY_LIMIT")) as [n [e|]] eqn:Ha.
    + cbn [st_concurrencyLimit st_log]. split; [reflexivity|].
      split; [intros _; exact Hne | intros _; apply Hwarn].
    + destruct (0 <? n)%Z eqn:Hpos.
      * apply Z.ltb_lt in Hpos. exfalso.
        exact (Hinv n (proj2 (Atoi_ok _ _ Ha) Hpos)).
      * cbn [st_concurrencyLimit st_log]. split; [reflexivity|].
        split; [intros _; exact Hne | intros _; apply Hwarn].
  - apply neqb_false_iff in Hne. rewrite Hne.
    cbn [st_concurrencyLimit st_log]. split; [reflexivity|].
    split; [|intros H; now contradiction H].
    unfold invalid_limit_warning. intros Hin. exfalso.
    apply in_app_or in Hin. destruct Hin as [Hin|Hin].
    + destruct (Getenv "API_KEY" =? ""); [|contradiction].
      destruct Hin as [Hin|[]]. discriminate.
    + cbn in Hin. destruct Hin as [Hin|[Hin|[]]]; discriminate.
Qed.

Lemma not_valid_limit_sample (n : Z) : ~ valid_limit "-3" n.
Proof.
  intros (ds & [<-|Hs] & Hd & _); [discriminate Hd | discriminate Hs].
Qed.

Lemma main_falls_back_to_default_witness :
  st_concurrencyLimit (main (env "secret" "-3")) = make_chan 20 /\
  In (invalid_limit_warning "-3") (st_log (main (env "secret" "-3"))).
Proof.
  pose proof (main_falls_back_to_default (env "secret" "-3")
                not_valid_limit_sample) as [H1 H2].
  split; [exact H1|]. apply H2. discriminate.
Defined.

(** X4: the first request after startup is never shed: served against the
    semaphore [main] creates, it is not answered 503, whatever the
    environment. *)
Theorem first_request_not_shed
    (wd : World) (Getenv : string -> string) (r : Request) :
  rw_status (w (serve_after_main wd Getenv r)) <> Some 503%Z.
Proof.
  unfold serve_after_main.
  assert (Hfree : (chan_len (st_concurrencyLimit (main Getenv))
                   < chan_cap (st_concurrencyLimit (main Getenv)))%nat).
  { unfold main. destruct (neqb (Getenv "CONCURRENCY_LIMIT") "");
      [|cbv; lia].
    destruct (Atoi (Getenv "CONCURRENCY_LIMIT")) as [n [e|]]; [cbv; lia|].
    destruct (0 <? n)%Z eqn:Hpos; [|cbv; lia].
    apply Z.ltb_lt in Hpos.
    cbn [st_concurrencyLimit make_chan chan_cap chan_len]. lia. }
  destruct (serve_outcome wd (st_apiKey (main Getenv))
              (st_concurrencyLimit (main Getenv)) r)
    as [| |Ha Hh Hfull Hd| | |]; cbn; try discriminate.
  lia.
Qed.


(** ** handleRequest *)

Lemma execute_result (wd : World) (method host : string) :
  result_of (execute wd method host) =
  if method =? "http" then
    (any_int (fst (result_of (checkHTTP wd host "http"))),
     snd (result_of (checkHTTP wd host "http")))
  else if method =? "https" then
    (any_int (fst (result_of (checkHTTP wd host "https"))),
     snd (result_of (checkHTTP wd host "https")))
  else
    (any_float64 (fst (result_of (checkPing wd host))),
     snd (result_of (checkPing wd host))).
Proof.
  unfold result_of at 1. unfold execute.
  destruct (method =? "http"); [|destruct (method =? "https")]; unfold bind.
  - now rewrite checkHTTP_run.
  - now rewrite checkHTTP_run.
  - now rewrite checkPing_run.
Qed.

(** X5: every way through the handler leaves the semaphore as it found it:
    a slot that was taken is released, on success and on probe failure, and
    no other path touches the channel. *)
Theorem serve_restores_semaphore
    (wd : World) (apiKey : string) (c : chan) (r : Request) :
  concurrencyLimit (serve wd apiKey c r) = c.
Proof.
  destruct (serve_outcome wd apiKey c r); reflexivity.
Qed.

(** X6: a request leaves one of six traces. It touches nothing (rejected
    before the gate), or only the gate (busy, abandoned), or it takes a slot,
    runs one probe and releases the slot: a single run of the ping utility,
    or a single HEAD request, built and then handed to [client.Do] once
    unless its URL is malformed. So no probe runs without a slot, none is
    retried, and a request never runs both kinds. What it logs is decided by
    the write of its body alone: nothing when the write succeeds or when
    there is no body, and one line with the error of [w.Write] when it fails,
    [Failed to write error response: ...] for a rejection and
    [JSON encode error: ...] for an envelope; marshalling never fails. *)
Theorem trace_grammar
    (wd : World) (apiKey : string) (c : chan) (r : Request) :
  let s := serve wd apiKey c r in
  trace_of_request (Get (URL_Query r) "host")
                   (select_method (Get (URL_Query r) "method"))
                   (trace s) /\
  logged s = write_failures wd s.
Proof.
  cbv zeta. split.
  - destruct (serve_outcome wd apiKey c r) as
      [Hk Hu|Ha Hh|Ha Hh Hfull Hd|Ha Hh Hd Hc|res e h m Ha Hh Hg Hr He
      |res j h m Ha Hh Hg Hr Hj Hn];
      try (cbn [rejected abandoned trace]; constructor).
    all: cbn [answered trace]; subst h m; rewrite execute_events;
      destruct (select_method_cases (Get (URL_Query r) "method"))
        as [(Hm & _)|[(Hm & _)|(Hm & _)]]; rewrite Hm;
      cbn [String.eqb Ascii.eqb Bool.eqb]; try rewrite checkHTTP_events;
      try (destruct (url_Parse wd _)); cbn [app];
      constructor; auto.
  - destruct (serve_outcome wd apiKey c r);
      unfold write_failures;
      cbn [rejected answered abandoned logged w rw_status rw_body flat_map];
      now rewrite ?app_nil_r.
Qed.

Lemma trace_grammar_witness :
  let gone := errors_New "write tcp 10.0.0.2:80->10.0.0.7:51034: write: broken pipe" in
  let wd := with_write_error
              (example_world "" (Exited 1) (inl 200%Z) false true) gone in
  logged (serve wd "secret" (make_chan 20)
            {| URL_Query := [("host", "example.com")] |})
  = ["Failed to write error response: write tcp 10.0.0.2:80->10.0.0.7:51034: write: broken pipe"] /\
  logged (serve wd "" (make_chan 20)
            {| URL_Query := [("host", "example.com")] |})
  = ["JSON encode error: write tcp 10.0.0.2:80->10.0.0.7:51034: write: broken pipe"] /\
  trace (serve wd "" (make_chan 20)
            {| URL_Query := [("host", "example.com")] |})
  = [EvChanSend; EvCheckPing "example.com"; EvExec (ping_argv "example.com");
     EvChanRecv].
Proof.
  cbv zeta. split; [|split].
  - rewrite (proj2 (trace_grammar _ "secret" (make_chan 20)
                      {| URL_Query := [("host", "example.com")] |})).
    reflexivity.
  - rewrite (proj2 (trace_grammar _ "" (make_chan 20)
                      {| URL_Query := [("host", "example.com")] |})).
    reflexivity.
  - reflexivity.
Defined.

(** X7: a request is answered with status 200, 400, 403 or 503, or not at
    all; in every case the only header set is Content-Type:
    application/json, and a status is written exactly when a body is. *)
Theorem status_and_header
    (wd : World) (apiKey : string) (c : chan) (r : Request) :
  let s := serve wd apiKey c r in
  rw_header (w s) = [("Content-Type", "application/json")] /\
  ((rw_status (w s) = None /\ rw_body (w s) = []) \/
   (exists body, rw_body (w s) = [body] /\
      (rw_status (w s) = Some 200%Z \/ rw_status (w s) = Some 400%Z \/
       rw_status (w s) = Some 403%Z \/ rw_status (w s) = Some 503%Z))).
Proof.
  cbv zeta. destruct (serve_outcome wd apiKey c r);
    cbn [rejected answered abandoned w rw_header rw_status rw_body];
    (split; [reflexivity|]); [right|right|right|left|right|right];
    try (split; reflexivity); eexists; split; try reflexivity; auto.
Qed.

(** X8: the method is matched exactly: any [method] other than the texts
    http and https (absent, empty, upper case, anything else) runs the ping
    probe, once, and the response says type ping. *)
Theorem method_defaults_to_ping
    (wd : World) (apiKey : string) (c : chan) (r : Request) :
  let host := Get (URL_Query r) "host" in
  let s := serve wd apiKey c r in
  authorized apiKey r -> host <> "" -> granted wd c ->
  Get (URL_Query r) "method" <> "http" ->
  Get (URL_Query r) "method" <> "https" ->
  trace s = [EvChanSend; EvCheckPing host; EvExec (ping_argv host);
             EvChanRecv] /\
  exists body, rw_body (w s) = [body] /\
               member "type" body = Some (JString "ping").
Proof.
  intros host s Ha Hh Hg H1 H2. subst s.
  assert (Hm : select_method (Get (URL_Query r) "method") = "ping").
  { unfold select_method. apply neqb_true_iff in H1, H2. now rewrite H1, H2. }
  destruct (result_of (execute wd (select_method (Get (URL_Query r) "method"))
                        host)) as [res [e|]] eqn:Hr.
  - rewrite (serve_granted_error wd apiKey c r res e Ha Hh Hg Hr).
    cbn [answered trace w rw_body]. rewrite execute_events, Hm.
    split; [reflexivity|]. eexists. split; reflexivity.
  - destruct (execute_ok_marshal _ _ _ _ Hr) as (j & Hj & _).
    rewrite (serve_granted_ok wd apiKey c r res j Ha Hh Hg Hr Hj).
    cbn [answered trace w rw_body]. rewrite execute_events, Hm.
    split; [reflexivity|]. eexists. split; reflexivity.
Qed.

Lemma method_defaults_to_ping_witness :
  let wd := example_world iputils_summary (Exited 0) (inl 200%Z) false true in
  let r := {| URL_Query := [("host", "example.com"); ("method", "HTTPS")] |} in
  trace (serve wd "" (make_chan 20) r)
  = [EvChanSend; EvCheckPing "example.com";
     EvExec (ping_argv "example.com"); EvChanRecv].
Proof.
  cbv zeta.
  refine (proj1 (method_defaults_to_ping
    (example_world iputils_summary (Exited 0) (inl 200%Z) false true)
    "" (make_chan 20)
    {| URL_Query := [("host", "example.com"); ("method", "HTTPS")] |}
    (or_introl eq_refl) _ (conj (Nat.lt_0_succ 19) (or_introl eq_refl)) _ _));
    discriminate.
Defined.

(** X9: the status code of the target is only data: when the HEAD request
    gets a response, whatever its code (a 404 or a 500 as well), the service
    answers 200 and the body carries the code as the integer [result],
    without an [error] member. *)
Theorem http_status_passthrough
    (wd : World) (apiKey : string) (c : chan) (r : Request) (code : Z) :
  let host := Get (URL_Query r) "host" in
  let method := Get (URL_Query r) "method" in
  let s := serve wd apiKey c r in
  authorized apiKey r -> host <> "" -> granted wd c ->
  method = "http" \/ method = "https" ->
  url_Parse wd (http_url host method) = None ->
  client_Do wd "HEAD" (http_url host method) = inl code ->
  rw_status (w s) = Some 200%Z /\
  rw_body (w s) = [[("host", JString host); ("type", JString method);
                    ("result", JInt code)]].
Proof.
  intros host method s Ha Hh Hg Hm Hp Hd. subst s.
  assert (Hsel : select_method (Get (URL_Query r) "method") = method).
  { fold method. destruct Hm as [-> | ->]; reflexivity. }
  assert (Hr : result_of (execute wd (select_method
                 (Get (URL_Query r) "method")) host) = (any_int code, None)).
  { rewrite Hsel, execute_result.
    destruct Hm as [Hm|Hm]; rewrite Hm in *; cbn [String.eqb Ascii.eqb Bool.eqb];
      rewrite checkHTTP_result, Hp, Hd; reflexivity. }
  rewrite (serve_granted_ok wd apiKey c r _ (JInt code) Ha Hh Hg Hr eq_refl).
  rewrite Hsel. split; reflexivity.
Qed.

Lemma http_status_passthrough_witness :
  let wd := example_world "" (Exited 1) (inl 500%Z) false true in
  let r := {| URL_Query := [("host", "example.com"); ("method", "https")] |} in
  rw_status (w (serve wd "" (make_chan 20) r)) = Some 200%Z /\
  rw_body (w (serve wd "" (make_chan 20) r))
  = [[("host", JString "example.com"); ("type", JString "https");
      ("result", JInt 500)]].
Proof.
  cbv zeta.
  refine (http_status_passthrough
    (example_world "" (Exited 1) (inl 500%Z) false true)
    "" (make_chan 20)
    {| URL_Query := [("host", "example.com"); ("method", "https")] |}
    500%Z (or_introl eq_refl) _ (conj (Nat.lt_0_succ 19) (or_introl eq_refl))
    (or_intror eq_refl) eq_refl eq_refl).
  discriminate.
Defined.

(** X10: when the ping probe succeeds the service answers 200 and the body
    carries the latency as the float [result], a finite number above
    zero, with type ping and without an [error] member. *)
Theorem ping_success_response
    (wd : World) (apiKey : string) (c : chan) (r : Request) (val : float64) :
  let host := Get (URL_Query r) "host" in
  let s := serve wd apiKey c r in
  authorized apiKey r -> host <> "" -> granted wd c ->
  Get (URL_Query r) "method" <> "http" ->
  Get (URL_Query r) "method" <> "https" ->
  result_of (checkPing wd host) = (val, None) ->
  rw_status (w s) = Some 200%Z /\
  rw_body (w s) = [[("host", JString host); ("type", JString "ping");
                    ("result", JFloat val)]] /\
  f64_lt f64_zero val = true.
Proof.
  intros host s Ha Hh Hg H1 H2 Hp. subst s.
  assert (Hm : select_method (Get (URL_Query r) "method") = "ping").
  { unfold select_method. apply neqb_true_iff in H1, H2. now rewrite H1, H2. }
  destruct (checkPing_result_shape wd host val None Hp) as (m & e & ->).
  assert (Hr : result_of (execute wd (select_method
                 (Get (URL_Query r) "method")) host)
               = (any_float64 (S754_finite false m e), None)).
  { rewrite Hm, execute_result. cbn [String.eqb Ascii.eqb Bool.eqb].
    fold host. now rewrite Hp. }
  rewrite (serve_granted_ok wd apiKey c r _ (JFloat (S754_finite false m e))
             Ha Hh Hg Hr eq_refl).
  rewrite Hm. repeat split.
Qed.

Lemma ping_success_response_witness :
  let wd := example_world iputils_summary (Exited 0) (inl 200%Z) false true in
  let r := {| URL_Query := [("host", "example.com")] |} in
  rw_body (w (serve wd "" (make_chan 20) r))
  = [[("host", JString "example.com"); ("type", JString "ping");
      ("result", JFloat (fst (ParseFloat "0.060")))]].
Proof.
  cbv zeta.
  refine (proj1 (proj2 (ping_success_response
    (example_world iputils_summary (Exited 0) (inl 200%Z) false true)
    "" (make_chan 20) {| URL_Query := [("host", "example.com")] |}
    (fst (ParseFloat "0.060"))
    (or_introl eq_refl) _ (conj (Nat.lt_0_succ 19) (or_introl eq_refl))
    _ _ eq_refl))); discriminate.
Defined.

(** X11: a host that makes a malformed URL costs no network traffic: the
    request is built and refused, nothing is sent, and the service answers
    200 with [result] 0 and the parse error as [error], in the wording of
    url.Error: the operation, the quoted URL, a colon and the cause. *)
Theorem malformed_url_not_sent
    (wd : World) (apiKey : string) (c : chan) (r : Request) (e : url_Error) :
  let host := Get (URL_Query r) "host" in
  let method := Get (URL_Query r) "method" in
  let s := serve wd apiKey c r in
  authorized apiKey r -> host <> "" -> granted wd c ->
  method = "http" \/ method = "https" ->
  url_Parse wd (http_url host method) = Some e ->
  trace s = [EvChanSend; EvCheckHTTP host method;
             EvNewRequest "HEAD" (http_url host method); EvChanRecv] /\
  rw_status (w s) = Some 200%Z /\
  rw_body (w s)
  = [[("host", JString host); ("type", JString method); ("result", JInt 0);
      ("error", JString (Op e ++ " " ++ strconv_Quote wd (URL e) ++ ": "
                         ++ Cause e))]].
Proof.
  intros host method s Ha Hh Hg Hm Hp. subst s.
  assert (Hsel : select_method (Get (URL_Query r) "method") = method).
  { fold method. destruct Hm as [-> | ->]; reflexivity. }
  assert (Hr : result_of (execute wd (select_method
                 (Get (URL_Query r) "method")) host)
               = (any_int 0, Some (errors_New (url_Error_Error wd e)))).
  { rewrite Hsel, execute_result.
    destruct Hm as [Hm|Hm]; rewrite Hm in *; cbn [String.eqb Ascii.eqb Bool.eqb];
      rewrite checkHTTP_result, Hp; reflexivity. }
  rewrite (serve_granted_error wd apiKey c r _ _ Ha Hh Hg Hr).
  cbn [answered trace w rw_status rw_body]. rewrite Hsel, execute_events.
  fold host.
  destruct Hm as [Hm|Hm]; rewrite Hm in *; cbn [String.eqb Ascii.eqb Bool.eqb];
    rewrite checkHTTP_events, Hp; repeat split.
Qed.

Lemma malformed_url_not_sent_witness :
  let bad := {| Op := "parse"; URL := "http://a b";
                Cause := "invalid character in host name" |} in
  let r := {| URL_Query := [("host", "a b"); ("method", "http")] |} in
  trace (serve (refusing_world bad) "" (make_chan 20) r)
  = [EvChanSend; EvCheckHTTP "a b" "http";
     EvNewRequest "HEAD" "http://a b"; EvChanRecv].
Proof.
  cbv zeta.
  refine (proj1 (malformed_url_not_sent
    (refusing_world {| Op := "parse"; URL := "http://a b";
                       Cause := "invalid character in host name" |})
    "" (make_chan 20)
    {| URL_Query := [("host", "a b"); ("method", "http")] |}
    {| Op := "parse"; URL := "http://a b";
       Cause := "invalid character in host name" |}
    (or_introl eq_refl) _ (conj (Nat.lt_0_succ 19) (or_introl eq_refl))
    (or_introl eq_refl) eq_refl)).
  discriminate.
Defined.


(** ** checkPing *)

(** X12: on a summary line written as iputils writes it, four decimals
    separated by slashes after a text in which no slash is followed by a
    digit, the pattern first matches at the slash after the first number: the
    groups are the second and the third number, and checkPing returns the
    third one (the maximum of min/avg/max/mdev), when it is positive. *)
Theorem checkPing_iputils_line
    (wd : World) (host pre n1 n2 n3 post : string) (val : float64) :
  os_exec wd (ping_argv host)
  = (pre ++ n1 ++ "/" ++ n2 ++ "/" ++ n3 ++ "/" ++ post, Exited 0) ->
  is_decimal n1 -> is_decimal n2 -> is_decimal n3 ->
  slash_digit_free (pre ++ n1) = true ->
  ParseFloat n3 = (val, None) ->
  f64_lt f64_zero val = true ->
  FindStringSubmatch (pre ++ n1 ++ "/" ++ n2 ++ "/" ++ n3 ++ "/" ++ post)
  = ["/" ++ n2 ++ "/" ++ n3 ++ "/"; n2; n3] /\
  result_of (checkPing wd host) = (val, None).
Proof.
  intros He D1 D2 D3 Hfree Hp Hpos.
  assert (Hm : FindStringSubmatch
                 (pre ++ n1 ++ "/" ++ n2 ++ "/" ++ n3 ++ "/" ++ post)
               = ["/" ++ n2 ++ "/" ++ n3 ++ "/"; n2; n3]).
  { rewrite <- StrFacts.append_assoc.
    apply (FindStringSubmatch_first (String.length (pre ++ n1))).
    - intros j Hj. now apply slash_digit_free_no_match.
    - rewrite StrFacts.drop_append. now apply match_here_intro. }
  split; [exact Hm|].
  rewrite (checkPing_match wd host _ _ _ _ He Hm), Hp.
  now rewrite (f64_lt_zero_not_le _ Hpos).
Qed.

Lemma checkPing_iputils_line_witness :
  let wd := example_world iputils_summary (Exited 0) (inl 200%Z) false true in
  result_of (checkPing wd "example.com") = (fst (ParseFloat "0.060"), None).
Proof.
  cbv zeta.
  refine (proj2 (checkPing_iputils_line
    (example_world iputils_summary (Exited 0) (inl 200%Z) false true)
    "example.com" "rtt min/avg/max/mdev = " "0.031" "0.045" "0.060"
    "0.012 ms" (fst (ParseFloat "0.060")) eq_refl _ _ _ eq_refl eq_refl
    eq_refl)).
  - exists "0", "031". repeat split.
  - exists "0", "045". repeat split.
  - exists "0", "060". repeat split.
Defined.

Lemma digits_val_zeros (s : string) :
  all_zeros s = true -> digits_val 0 s = 0%Z.
Proof.
  induction s as [|c s IH]; [reflexivity|]. cbn [all_zeros digits_val].
  intros H. apply andb_true_iff in H as [Hc Hs].
  apply Ascii.eqb_eq in Hc. subst c. exact (IH Hs).
Qed.

Lemma all_zeros_digits (s : string) :
  all_zeros s = true -> all_digits s = true.
Proof.
  induction s as [|c s IH]; [reflexivity|]. cbn [all_zeros all_digits].
  intros H. apply andb_true_iff in H as [Hc Hs].
  apply Ascii.eqb_eq in Hc. subst c. now rewrite (IH Hs).
Qed.

Lemma all_zeros_app (a b : string) :
  all_zeros a = true -> all_zeros b = true -> all_zeros (a ++ b) = true.
Proof.
  induction a as [|c a IH]; [trivial|]. cbn [all_zeros append].
  intros H Hb. apply andb_true_iff in H as [Hc Ha].
  now rewrite Hc, (IH Ha Hb).
Qed.

(** X13: a latency written with zeros only (0.000, 00.0) is refused: when
    the second number of the leftmost occurrence of the pattern has no digit
    other than 0, checkPing fails with "invalid ping result: 0", though the
    utility exited successfully and the output was parsed. *)
Theorem checkPing_rejects_zero
    (wd : World) (host out g1 a b : string) :
  os_exec wd (ping_argv host) = (out, Exited 0) ->
  first_match out g1 (a ++ "." ++ b) ->
  a <> "" -> b <> "" -> all_zeros a = true -> all_zeros b = true ->
  result_of (checkPing wd host)
  = (f64_zero, Some (errors_New "invalid ping result: 0")).
Proof.
  intros He Hm Ha Hb Za Zb. apply first_match_iff in Hm.
  rewrite (checkPing_match wd host _ _ _ _ He Hm).
  assert (Da : digits1 a = true).
  { destruct a; [congruence|]. now apply all_zeros_digits. }
  assert (Db : digits1 b = true).
  { destruct b; [congruence|]. now apply all_zeros_digits. }
  rewrite (ParseFloat_decimal a b Da Db).
  rewrite (digits_val_zeros (a ++ b) (all_zeros_app _ _ Za Zb)).
  reflexivity.
Qed.

Lemma checkPing_rejects_zero_witness :
  let out := "rtt min/avg/max/mdev = 0.000/0.000/0.000/0.000 ms" in
  let wd := example_world out (Exited 0) (inl 200%Z) false true in
  result_of (checkPing wd "localhost")
  = (f64_zero, Some (errors_New "invalid ping result: 0")).
Proof.
  cbv zeta.
  refine (checkPing_rejects_zero
    (example_world "rtt min/avg/max/mdev = 0.000/0.000/0.000/0.000 ms"
       (Exited 0) (inl 200%Z) false true)
    "localhost" "rtt min/avg/max/mdev = 0.000/0.000/0.000/0.000 ms"
    "0.000" "0" "000" eq_refl _ _ _ eq_refl eq_refl); try discriminate.
  apply first_match_iff. reflexivity.
Defined.

(** ** The rounding of ParseFloat away from zero and overflow *)

Local Open Scope Z_scope.

Lemma digits2_pos_bounds (p : positive) :
  2 ^ (Zpos (digits2_pos p) - 1) <= Zpos p < 2 ^ Zpos (digits2_pos p).
Proof.
  induction p as [p IH|p IH|]; cbn [digits2_pos].
  - rewrite Pos2Z.inj_succ.
    replace (Z.succ (Zpos (digits2_pos p)) - 1)
      with (Z.succ (Zpos (digits2_pos p) - 1)) by lia.
    rewrite !Z.pow_succ_r by lia. lia.
  - rewrite Pos2Z.inj_succ.
    replace (Z.succ (Zpos (digits2_pos p)) - 1)
      with (Z.succ (Zpos (digits2_pos p) - 1)) by lia.
    rewrite !Z.pow_succ_r by lia. lia.
  - cbn. lia.
Qed.

Lemma Zdigits2_bounds (m : Z) :
  0 < m -> 2 ^ (Zdigits2 m - 1) <= m < 2 ^ Zdigits2 m.
Proof.
  destruct m as [|p|p]; try lia. intros _. apply digits2_pos_bounds.
Qed.

Lemma Zdigits2_unique (m d : Z) :
  0 < d -> 2 ^ (d - 1) <= m < 2 ^ d -> Zdigits2 m = d.
Proof.
  intros Hd [Hlo Hhi].
  assert (Hm : 0 < m) by (pose proof (Z.pow_pos_nonneg 2 (d - 1)); lia).
  destruct (Zdigits2_bounds m Hm) as [Hlo' Hhi'].
  assert (Hd' : 0 < Zdigits2 m) by (destruct m; simpl; lia).
  destruct (Z.lt_trichotomy (Zdigits2 m) d) as [Hlt|[Heq|Hgt]]; [|exact Heq|].
  - exfalso.
    assert (2 ^ Zdigits2 m <= 2 ^ (d - 1)) by (apply Z.pow_le_mono_r; lia).
    lia.
  - exfalso.
    assert (2 ^ d <= 2 ^ (Zdigits2 m - 1)) by (apply Z.pow_le_mono_r; lia).
    lia.
Qed.

Lemma shr_1_half (mrs : shr_record) :
  0 <= shr_m mrs -> shr_m (shr_1 mrs) = shr_m mrs / 2.
Proof.
  destruct mrs as [m r s]. cbn [shr_m shr_1].
  destruct m as [|[p|p|]|p]; cbn [shr_m]; intros H; try lia.
  - reflexivity.
  - rewrite Pos2Z.inj_xI. apply (Z.div_unique _ 2 _ 1); lia.
  - rewrite Pos2Z.inj_xO. apply (Z.div_unique _ 2 _ 0); lia.
  - reflexivity.
Qed.

Lemma iter_shr_1_div (n : positive) (mrs : shr_record) :
  0 <= shr_m mrs ->
  shr_m (iter_pos shr_1 n mrs) = shr_m mrs / 2 ^ Zpos n.
Proof.
  revert mrs. induction n as [n IH|n IH|]; intros mrs H; cbn [iter_pos].
  - rewrite IH by (apply iter_shr_1_nonneg, shr_1_nonneg, H).
    rewrite IH by (apply shr_1_nonneg, H).
    rewrite shr_1_half by exact H.
    rewrite !Z.div_div by (try apply Z.pow_pos_nonneg; lia).
    f_equal. rewrite <- Z.pow_add_r by lia.
    rewrite <- Z.pow_succ_r by lia. f_equal. lia.
  - rewrite IH by (apply iter_shr_1_nonneg, H).
    rewrite IH by exact H.
    rewrite !Z.div_div by (try apply Z.pow_pos_nonneg; lia).
    f_equal. rewrite <- Z.pow_add_r by lia. f_equal. lia.
  - rewrite shr_1_half by exact H. reflexivity.
Qed.

(** Rounding to 53 bits, for a mantissa in the normal range: [shr_fexp]
    leaves 53 digits and moves the exponent by as much. *)
Lemma shr_fexp_normal (m e : Z) (l : location) :
  0 < m -> 53 <= Zdigits2 m -> -1074 <= Zdigits2 m + e - 53 ->
  let '(mrs, e') := shr_fexp prec64 emax64 m e l in
  e' = Zdigits2 m + e - 53 /\
  shr_m mrs = m / 2 ^ (Zdigits2 m - 53) /\
  2 ^ 52 <= shr_m mrs < 2 ^ 53.
Proof.
  intros Hm Hd He.
  destruct (Zdigits2_bounds m Hm) as [Hlo Hhi].
  unfold shr_fexp, fexp, emin, prec64, emax64.
  replace (Z.max (Zdigits2 m + e - 53) (3 - 1024 - 53) - e)
    with (Zdigits2 m - 53) by lia.
  assert (H0 : shr_m (shr_record_of_loc m l) = m)
    by (destruct l as [|[]]; reflexivity).
  unfold shr. destruct (Zdigits2 m - 53) as [|n|n] eqn:Hn; try lia.
  - split; [lia|]. rewrite H0. cbn [Z.pow]. rewrite Z.div_1_r.
    split; [reflexivity|].
    replace (Zdigits2 m) with 53 in * by lia. cbn in Hlo. lia.
  - split; [lia|]. rewrite iter_shr_1_div by (rewrite H0; lia). rewrite H0.
    split; [reflexivity|].
    assert (Hp : 0 < 2 ^ Zpos n) by (apply Z.pow_pos_nonneg; lia).
    replace (Zdigits2 m - 1) with (52 + Zpos n) in Hlo by lia.
    replace (Zdigits2 m) with (53 + Zpos n) in Hhi by lia.
    rewrite Z.pow_add_r in Hlo, Hhi by lia.
    split.
    + apply Z.div_le_lower_bound; lia.
    + apply Z.div_lt_upper_bound; lia.
Qed.


Lemma round_nearest_even_bounds (m : Z) (l : location) :
  m <= round_nearest_even m l <= m + 1.
Proof.
  destruct l as [|[]]; cbn [round_nearest_even]; try lia.
  destruct (Z.even m); lia.
Qed.

(** A positive mantissa of at least 53 bits whose value lies in the normal
    range rounds to a finite positive number. *)
Lemma binary_round_aux_normal (m e : Z) (l : location) :
  0 < m -> 53 <= Zdigits2 m -> -1074 <= Zdigits2 m + e - 53 ->
  Zdigits2 m + e <= 1023 ->
  exists m' e', binary_round_aux prec64 emax64 false m e l
                = S754_finite false m' e'.
Proof.
  intros Hm Hd Hlo Hhi. unfold binary_round_aux.
  pose proof (shr_fexp_normal m e l Hm Hd Hlo) as H1.
  destruct (shr_fexp prec64 emax64 m e l) as [mrs1 e1].
  destruct H1 as (He1 & _ & Hb1).
  set (m2 := round_nearest_even (shr_m mrs1) (loc_of_shr_record mrs1)).
  pose proof (round_nearest_even_bounds (shr_m mrs1) (loc_of_shr_record mrs1))
    as Hr. fold m2 in Hr.
  assert (Hm2 : 0 < m2) by lia.
  assert (Hd2 : Zdigits2 m2 = 53 \/ Zdigits2 m2 = 54).
  { destruct (Z.eq_dec m2 (2 ^ 53)) as [Heq|Hne].
    - right. apply Zdigits2_unique; [lia|]. rewrite Heq. cbn. lia.
    - left. apply Zdigits2_unique; [lia|]. cbn. cbn in Hb1. lia. }
  pose proof (shr_fexp_normal m2 e1 loc_Exact Hm2 ltac:(lia) ltac:(lia)) as H2.
  destruct (shr_fexp prec64 emax64 m2 e1 loc_Exact) as [mrs2 e2].
  destruct H2 as (He2 & _ & Hb2).
  destruct (shr_m mrs2) as [|m3|m3] eqn:Hm3; try (cbn in Hb2; lia).
  assert (Hle : (e2 <=? emax64 - prec64) = true).
  { apply Z.leb_le. unfold emax64, prec64. lia. }
  rewrite Hle. now exists m3, e2.
Qed.

(** The quotient of two positive integers, the divisor below 2^1021 and the
    quotient below 2^1023, rounds to a finite positive float64: neither
    zero nor infinite. *)
Lemma SFdiv_positive_finite (p q : positive) :
  Zpos q < 2 ^ 1021 -> Zpos p < 2 ^ 1023 * Zpos q ->
  exists m e,
    SFdiv prec64 emax64 (S754_finite false p 0) (S754_finite false q 0)
    = S754_finite false m e.
Proof.
  intros Hq Hp. unfold SFdiv, SFdiv_core_binary. cbn [xorb].
  set (d1 := Zdigits2 (Zpos p)). set (d2 := Zdigits2 (Zpos q)).
  destruct (Zdigits2_bounds (Zpos p) ltac:(lia)) as [Hp1 Hp2]. fold d1 in Hp1, Hp2.
  destruct (Zdigits2_bounds (Zpos q) ltac:(lia)) as [Hq1 Hq2]. fold d2 in Hq1, Hq2.
  assert (Hd1 : 1 <= d1) by (subst d1; cbn; lia).
  assert (Hd2 : 1 <= d2) by (subst d2; cbn; lia).
  assert (Hd2' : d2 <= 1021).
  { destruct (Z_lt_le_dec 1021 d2) as [Hgt|]; [|assumption]. exfalso.
    assert (2 ^ 1021 <= 2 ^ (d2 - 1)) by (apply Z.pow_le_mono_r; lia). lia. }
  unfold fexp, emin, prec64, emax64.
  set (e' := Z.min (Z.max (d1 + 0 - (d2 + 0) - 53) (3 - 1024 - 53)) (0 - 0)).
  assert (He' : e' = Z.min (d1 - d2 - 53) 0) by (subst e'; lia).
  assert (Hs : 0 - 0 - e' = - e') by lia. rewrite Hs.
  set (m' := match - e' with
             | 0 => Zpos p
             | Zpos _ => Z.shiftl (Zpos p) (- e')
             | Zneg _ => 0
             end).
  assert (Hm' : m' = Zpos p * 2 ^ (- e')).
  { subst m'. destruct (- e') as [|s|s] eqn:Hse; try lia.
    rewrite Z.shiftl_mul_pow2 by lia. reflexivity. }
  assert (Hpow : 0 < 2 ^ (- e')) by (apply Z.pow_pos_nonneg; lia).
  pose proof (Z.div_mod m' (Zpos q) ltac:(lia)) as Hdm.
  pose proof (Z.mod_pos_bound m' (Zpos q) ltac:(lia)) as Hmod.
  unfold Z.div, Z.modulo in Hdm, Hmod.
  destruct (Z.div_eucl m' (Zpos q)) as [mz r].
  (* the quotient has at least 53 bits *)
  assert (Hlow : 2 ^ 52 * Zpos q <= m').
  { rewrite Hm'.
    destruct (Z_lt_le_dec (d1 - d2 - 53) 0) as [Hneg|Hnn].
    - replace (- e') with (d2 + 53 - d1) by lia.
      assert (Hx : 2 ^ (d1 - 1) * 2 ^ (d2 + 53 - d1) = 2 ^ 52 * 2 ^ d2).
      { rewrite <- !Z.pow_add_r by lia. f_equal. lia. }
      nia.
    - replace (- e') with 0 by lia. rewrite Z.pow_0_r, Z.mul_1_r.
      assert (Hx : 2 ^ 52 * 2 ^ d2 <= 2 ^ (d1 - 1)).
      { rewrite <- Z.pow_add_r by lia. apply Z.pow_le_mono_r; lia. }
      nia. }
  assert (Hmz : 2 ^ 52 <= mz) by nia.
  assert (Hup : mz < 2 ^ 1023 * 2 ^ (- e')) by nia.
  assert (Hdz : 53 <= Zdigits2 mz).
  { destruct (Zdigits2_bounds mz ltac:(lia)) as [_ Hhi].
    destruct (Z_lt_le_dec (Zdigits2 mz) 53) as [Hlt|]; [|assumption].
    exfalso.
    assert (2 ^ Zdigits2 mz <= 2 ^ 52).
    { apply Z.pow_le_mono_r; lia. }
    lia. }
  assert (Hdz' : Zdigits2 mz + e' <= 1023).
  { destruct (Zdigits2_bounds mz ltac:(lia)) as [Hlo _].
    destruct (Z_lt_le_dec 1023 (Zdigits2 mz + e')) as [Hgt|]; [|lia].
    exfalso. rewrite <- Z.pow_add_r in Hup by lia.
    assert (2 ^ (1023 + - e') <= 2 ^ (Zdigits2 mz - 1)).
    { apply Z.pow_le_mono_r; lia. }
    lia. }
  apply binary_round_aux_normal; lia.
Qed.


Lemma digits_val_bound (s : string) (acc : Z) :
  all_digits s = true -> 0 <= acc ->
  acc <= digits_val acc s < (acc + 1) * 10 ^ Z.of_nat (String.length s).
Proof.
  revert acc. induction s as [|c s IH]; intros acc H Hacc.
  - cbn. lia.
  - cbn [all_digits] in H. apply andb_true_iff in H as [Hc Hs].
    pose proof (digit_val_range c Hc) as Hd.
    cbn [digits_val String.length]. rewrite Nat2Z.inj_succ.
    rewrite Z.pow_succ_r by lia.
    destruct (IH (10 * acc + digit_val c) Hs ltac:(lia)) as [Hlo Hhi].
    assert (Hp : 0 < 10 ^ Z.of_nat (String.length s))
      by (apply Z.pow_pos_nonneg; lia).
    split; [lia | nia].
Qed.

Lemma digits_val_positive (s : string) :
  all_digits s = true -> all_zeros s = false -> 0 < digits_val 0 s.
Proof.
  induction s as [|c s IH]; [discriminate|].
  cbn [all_digits all_zeros digits_val]. intros H Hz.
  apply andb_true_iff in H as [Hc Hs].
  destruct (c =? "0")%char eqn:Hc0.
  - apply Ascii.eqb_eq in Hc0. subst c. cbn [andb] in Hz. exact (IH Hs Hz).
  - assert (Hd : 1 <= digit_val c).
    { revert Hc Hc0. destruct c as [[] [] [] [] [] [] [] []]; cbv;
        intros; try discriminate. }
    pose proof (digit_val_range c Hc).
    destruct (digits_val_bound s (10 * 0 + digit_val c) Hs ltac:(lia)). lia.
Qed.

Lemma all_digits_app (a b : string) :
  all_digits a = true -> all_digits b = true -> all_digits (a ++ b) = true.
Proof.
  induction a as [|c a IH]; [trivial|]. cbn [all_digits append].
  intros H Hb. apply andb_true_iff in H as [Hc Ha].
  now rewrite Hc, (IH Ha Hb).
Qed.

(** A decimal with a digit other than 0 and at most 300 digits on each
    side of the point is parsed without an error, to a finite number above
    zero: it neither underflows to 0 nor overflows. *)
Lemma ParseFloat_positive (a b : string) :
  digits1 a = true -> digits1 b = true ->
  (String.length a <= 300)%nat -> (String.length b <= 300)%nat ->
  all_zeros (a ++ b) = false ->
  exists m e, ParseFloat (a ++ "." ++ b) = (S754_finite false m e, None).
Proof.
  intros Da Db La Lb Hz. rewrite (ParseFloat_decimal a b Da Db). cbv zeta.
  assert (Hall : all_digits (a ++ b) = true)
    by (apply all_digits_app; now apply digits1_all).
  pose proof (digits_val_positive _ Hall Hz) as Hpos.
  destruct (digits_val_bound (a ++ b) 0 Hall (Z.le_refl 0)) as [_ Hup].
  rewrite StrFacts.length_append, Nat2Z.inj_add, Z.pow_add_r in Hup by lia.
  set (k := Z.of_nat (String.length b)) in *.
  assert (Hk : 0 < 10 ^ k <= 10 ^ 300).
  { split; [apply Z.pow_pos_nonneg; lia | apply Z.pow_le_mono_r; lia]. }
  assert (Ha : 0 < 10 ^ Z.of_nat (String.length a) <= 10 ^ 300).
  { split; [apply Z.pow_pos_nonneg; lia | apply Z.pow_le_mono_r; lia]. }
  assert (H300 : 10 ^ 300 < 2 ^ 1021) by (vm_compute; reflexivity).
  assert (H1023 : 2 ^ 1021 < 2 ^ 1023) by (vm_compute; reflexivity).
  destruct (digits_val 0 (a ++ b)) as [|p|p] eqn:Hn; try lia.
  unfold decimal_to_f64. fold k.
  destruct (SFdiv_positive_finite p (Z.to_pos (10 ^ k))) as (m & e & Hdiv).
  - rewrite Z2Pos.id by lia. lia.
  - rewrite Z2Pos.id by lia. nia.
  - rewrite Hdiv. now exists m, e.
Qed.


(** X14: a latency with a digit other than 0 is accepted: when the second
    number of the leftmost occurrence of the pattern has one, and at most 300
    digits on each side of its point, checkPing returns without an error the
    float64 nearest to that number, finite and above zero. With X13: within
    that size, checkPing succeeds exactly when the number is not zero. *)
Theorem checkPing_accepts_nonzero
    (wd : World) (host out g1 a b : string) :
  os_exec wd (ping_argv host) = (out, Exited 0) ->
  first_match out g1 (a ++ "." ++ b) ->
  digits1 a = true -> digits1 b = true ->
  (String.length a <= 300)%nat -> (String.length b <= 300)%nat ->
  all_zeros (a ++ b) = false ->
  exists m e,
    ParseFloat (a ++ "." ++ b) = (S754_finite false m e, None) /\
    result_of (checkPing wd host) = (S754_finite false m e, None).
Proof.
  intros He Hm Da Db La Lb Hz. apply first_match_iff in Hm.
  destruct (ParseFloat_positive a b Da Db La Lb Hz) as (m & e & Hp).
  exists m, e. split; [exact Hp|].
  rewrite (checkPing_match wd host _ _ _ _ He Hm), Hp. reflexivity.
Qed.

Lemma checkPing_accepts_nonzero_witness :
  let wd := example_world iputils_summary (Exited 0) (inl 200%Z) false true in
  exists m e,
    ParseFloat "0.060" = (S754_finite false m e, None) /\
    result_of (checkPing wd "example.com") = (S754_finite false m e, None).
Proof.
  cbv zeta.
  refine (checkPing_accepts_nonzero
    (example_world iputils_summary (Exited 0) (inl 200%Z) false true)
    "example.com" iputils_summary "0.045" "0" "060"
    eq_refl _ eq_refl eq_refl _ _ eq_refl).
  - apply first_match_iff. reflexivity.
  - cbn. lia.
  - cbn. lia.
Defined.

(** ** The handler as a whole *)

(** X15: of the query the handler reads the first value of [key], of
    [host] and of [method], and no more: in one world (which holds the state
    of the request's context) and against one semaphore, two queries that
    agree on these three values are served alike, in what is written, done
    and logged, whatever other parameters, repeated values or order they
    have. *)
Theorem serve_reads_three_parameters
    (wd : World) (apiKey : string) (c : chan) (q q' : list (string * string)) :
  Get q' "key" = Get q "key" ->
  Get q' "host" = Get q "host" ->
  Get q' "method" = Get q "method" ->
  serve wd apiKey c {| URL_Query := q' |}
  = serve wd apiKey c {| URL_Query := q |}.
Proof.
  intros Hk Hh Hm. unfold serve, handleRequest, bind. cbn [URL_Query].
  now rewrite Hk, Hh, Hm.
Qed.

Lemma serve_reads_three_parameters_witness :
  let wd := example_world iputils_summary (Exited 0) (inl 200%Z) false true in
  serve wd "secret" (make_chan 20)
    {| URL_Query := [("verbose", "1"); ("host", "example.com");
                     ("key", "secret"); ("host", "other.example")] |}
  = serve wd "secret" (make_chan 20)
      {| URL_Query := [("key", "secret"); ("host", "example.com")] |}.
Proof.
  cbv zeta.
  exact (serve_reads_three_parameters
    (example_world iputils_summary (Exited 0) (inl 200%Z) false true)
    "secret" (make_chan 20)
    [("key", "secret"); ("host", "example.com")]
    [("verbose", "1"); ("host", "example.com");
     ("key", "secret"); ("host", "other.example")]
    eq_refl eq_refl eq_refl).
Defined.

(** X16: the status is decided by four facts, in this order: 403 exactly
    when a credential is configured and [key] differs from it; else 400
    exactly when [host] is empty; else no response exactly when the context
    is done and the select does not take the send; else 503 exactly when no
    slot is free; else 200, whatever the probe returns. *)
Theorem status_decision_table
    (wd : World) (apiKey : string) (c : chan) (r : Request) :
  let st := rw_status (w (serve wd apiKey c r)) in
  let host := Get (URL_Query r) "host" in
  (st = Some 403 <-> ~ authorized apiKey r) /\
  (st = Some 400 <-> authorized apiKey r /\ host = "") /\
  (st = None <->
     authorized apiKey r /\ host <> "" /\ ctx_Done wd = true /\
     ((chan_cap c <= chan_len c)%nat \/ select_pick_send wd = false)) /\
  (st = Some 503 <->
     authorized apiKey r /\ host <> "" /\ ctx_Done wd = false /\
     (chan_cap c <= chan_len c)%nat) /\
  (st = Some 200 <-> authorized apiKey r /\ host <> "" /\ granted wd c).
Proof.
  cbv zeta.
  destruct (serve_outcome wd apiKey c r) as
    [Hk Hu|Ha Hh|Ha Hh Hfull Hd|Ha Hh Hd Hc|res e h m Ha Hh Hg Hr He
    |res j h m Ha Hh Hg Hr Hj Hn];
    cbn [rejected answered abandoned w rw_status].
  - assert (Hn : ~ authorized apiKey r)
      by (intros [H|H]; contradiction).
    repeat split; try discriminate; try tauto.
  - repeat split; try discriminate; try tauto.
  - unfold granted. repeat split; try discriminate; try tauto;
      try (intros; intuition (congruence || lia)).
  - unfold granted. repeat split; try discriminate; try tauto;
      try (intros; intuition (congruence || lia)).
  - subst h. destruct Hg as [Hlt Hp]. unfold granted.
    repeat split; try discriminate; try tauto;
      try (intros; intuition (congruence || lia)).
  - subst h. destruct Hg as [Hlt Hp]. unfold granted.
    repeat split; try discriminate; try tauto;
      try (intros; intuition (congruence || lia)).
Qed.
